(** * cmmt: the commit-message generation pipeline of [src/main.py]

    A shallow embedding of the prompt builder, the response parser, the
    git command executor and the run orchestrator, with the properties the
    specification states about them.

    Python [str] values are sequences of Unicode code points; they are
    modelled as lists of [N].  Python's [None] and the values produced by
    [json.loads] share one type, [value], whose [JNull] is [None]. *)

From Stdlib Require Import String Ascii.
From Stdlib Require Import List NArith ZArith Bool Lia.
Import ListNotations.

Set Implicit Arguments.

(** ** Text: Python [str] as a list of code points *)

Module Text.

Definition str : Type := list N.

(** The code points of an ASCII literal. *)
Definition lit (s : string) : str :=
  List.map N_of_ascii (list_ascii_of_string s).

Definition str_eqb (a b : str) : bool :=
  if list_eq_dec N.eq_dec a b then true else false.

(** [str.isspace] on one code point (CPython's [_PyUnicode_IsWhitespace]). *)
Definition isspace (c : N) : bool :=
  ((9 <=? c) && (c <=? 13) || (28 <=? c) && (c <=? 32)
   || (c =? 133) || (c =? 160) || (c =? 5760)
   || (8192 <=? c) && (c <=? 8202)
   || (c =? 8232) || (c =? 8233) || (c =? 8239) || (c =? 8287)
   || (c =? 12288))%N.

Fixpoint lstrip (s : str) : str :=
  match s with
  | c :: r => if isspace c then lstrip r else s
  | [] => []
  end.

Definition rstrip (s : str) : str := rev (lstrip (rev s)).

(** [s.strip()] *)
Definition strip (s : str) : str := rstrip (lstrip s).

(** [s.startswith(p)] *)
Fixpoint startswith (p s : str) : bool :=
  match p, s with
  | [], _ => true
  | a :: p', b :: s' => (a =? b)%N && startswith p' s'
  | _ :: _, [] => false
  end.

(** [s.endswith(p)] *)
Definition endswith (p s : str) : bool := startswith (rev p) (rev s).

(** [s[n:]] for [n >= 0] *)
Definition slice_from (n : nat) (s : str) : str := skipn n s.

(** [s[:-n]] for [n > 0] *)
Definition slice_to_minus (n : nat) (s : str) : str :=
  firstn (length s - n) s.

(** A code point of the surrogate range, U+D800 to U+DFFF. *)
Definition is_surrogate (c : N) : bool := ((55296 <=? c) && (c <=? 57343))%N.

(** [needle in s] *)
Fixpoint contains (needle s : str) : bool :=
  startswith needle s ||
  match s with
  | [] => false
  | _ :: r => contains needle r
  end.

End Text.
Import Text.

(** ** Json: the values and the decoder of Python's [json] module

    [json.loads] is the standard library's; the decoder below follows
    [json/scanner.py] ([scan_once]) and [json/decoder.py] ([scanstring],
    [JSONObject], [JSONArray], [JSONDecoder.decode]).  A
    [JSONDecodeError] is the result [Bad].  The decoder also meets two
    limits of the interpreter, which are parameters here: the depth of
    nested arrays and objects it can enter, beyond which it raises
    [RecursionError], and the number of digits of an integer literal,
    beyond which [int] raises [ValueError]. *)

Module Json.

#[local] Set Warnings "-register-all".

Inductive value : Type :=
| JNull                                   (* None *)
| JBool (b : bool)
| JInt (z : Z)
| JFloat (mant exp10 : Z)                 (* the double nearest mant * 10^exp10 *)
| JNaN
| JInf (negative : bool)
| JString (s : str)
| JArray (items : list value)
| JObject (pairs : list (str * value)).   (* dict(pairs): the last binding wins *)

(** [d.get(k)] on the dict built from [pairs]; [None] when [k] is absent. *)
Fixpoint dict_get (pairs : list (str * value)) (k : str) : option value :=
  match pairs with
  | [] => None
  | (k', v) :: rest =>
      match dict_get rest k with
      | Some w => Some w
      | None => if str_eqb k' k then Some v else None
      end
  end.

(** A decimal literal denotes the float zero when it is zero or rounds to
    zero, that is when it is at most half the least subnormal, 2^-1075. *)
Definition float_is_zero (mant exp10 : Z) : bool :=
  ((mant =? 0) ||
   (exp10 <? 0) && (Z.abs mant * 2 ^ 1075 <=? 10 ^ (- exp10)))%Z.

(** [bool(v)]: Python's truth value. *)
Definition truthy (v : value) : bool :=
  match v with
  | JNull => false
  | JBool b => b
  | JInt z => negb (z =? 0)%Z
  | JFloat m e => negb (float_is_zero m e)
  | JNaN => true
  | JInf _ => true
  | JString s => match s with [] => false | _ => true end
  | JArray l => match l with [] => false | _ => true end
  | JObject p => match p with [] => false | _ => true end
  end.

(** The decoder's whitespace: space, tab, line feed, carriage return. *)
Definition is_ws (c : N) : bool :=
  ((c =? 32) || (c =? 9) || (c =? 10) || (c =? 13))%N.

Fixpoint skip_ws (s : str) : str :=
  match s with
  | c :: r => if is_ws c then skip_ws r else s
  | [] => []
  end.

Definition is_digit (c : N) : bool := ((48 <=? c) && (c <=? 57))%N.

Definition hexval (c : N) : option N :=
  if is_digit c then Some (c - 48)%N
  else if ((97 <=? c) && (c <=? 102))%N then Some (c - 87)%N
  else if ((65 <=? c) && (c <=? 70))%N then Some (c - 55)%N
  else None.

Definition hex4 (a b c d : N) : option N :=
  match hexval a, hexval b, hexval c, hexval d with
  | Some x, Some y, Some z, Some w => Some (((x * 16 + y) * 16 + z) * 16 + w)%N
  | _, _, _, _ => None
  end.

(** The one-character escapes of [BACKSLASH]. *)
Definition backslash (e : N) : option N :=
  if (e =? 34)%N then Some 34%N            (* quote *)
  else if (e =? 92)%N then Some 92%N       (* backslash *)
  else if (e =? 47)%N then Some 47%N       (* slash *)
  else if (e =? 98)%N then Some 8%N        (* b *)
  else if (e =? 102)%N then Some 12%N      (* f *)
  else if (e =? 110)%N then Some 10%N      (* n *)
  else if (e =? 114)%N then Some 13%N      (* r *)
  else if (e =? 116)%N then Some 9%N       (* t *)
  else None.

Definition is_high_surrogate (u : N) : bool := ((55296 <=? u) && (u <=? 56319))%N.
Definition is_low_surrogate (u : N) : bool := ((56320 <=? u) && (u <=? 57343))%N.

(** [scanstring(s, end, strict=True)]: [s] starts just after the opening
    quote; the result is the decoded string and the text after the closing
    quote.  [acc] holds the decoded characters, the latest first. *)
Fixpoint scanstring (s : str) (acc : str) : option (str * str) :=
  match s with
  | [] => None
  | c :: r =>
      if (c =? 34)%N then Some (rev acc, r)
      else if (c =? 92)%N then
        match r with
        | [] => None
        | e :: r1 =>
            if (e =? 117)%N then
              match r1 with
              | a :: b :: c1 :: d :: r2 =>
                  match hex4 a b c1 d with
                  | None => None
                  | Some uni =>
                      if is_high_surrogate uni then
                        match r2 with
                        | bs :: u :: a2 :: b2 :: c2 :: d2 :: r4 =>
                            if ((bs =? 92) && (u =? 117))%N then
                              match hex4 a2 b2 c2 d2 with
                              | None => None
                              | Some uni2 =>
                                  if is_low_surrogate uni2 then
                                    scanstring r4
                                      ((65536 + ((uni - 55296) * 1024 + (uni2 - 56320)))%N :: acc)
                                  else scanstring r2 (uni :: acc)
                              end
                            else scanstring r2 (uni :: acc)
                        | _ => scanstring r2 (uni :: acc)
                        end
                      else scanstring r2 (uni :: acc)
                  end
              | _ => None
              end
            else
              match backslash e with
              | Some ch => scanstring r1 (ch :: acc)
              | None => None
              end
        end
      else if (c <? 32)%N then None
      else scanstring r (c :: acc)
  end.

(** The longest prefix of decimal digits and what follows it. *)
Fixpoint span_digits (s : str) : str * str :=
  match s with
  | c :: r =>
      if is_digit c then let (ds, rest) := span_digits r in (c :: ds, rest)
      else ([], s)
  | [] => ([], [])
  end.

Definition digits_value (ds : str) : Z :=
  fold_left (fun acc c => (acc * 10 + Z.of_N (c - 48))%Z) ds 0%Z.

(** The integer part of [NUMBER_RE]: [0|[1-9][0-9]*]. *)
Definition match_int (s : str) : option (str * str) :=
  match s with
  | c :: r =>
      if (c =? 48)%N then Some ([c], r)
      else if is_digit c then let (ds, rest) := span_digits r in Some (c :: ds, rest)
      else None
  | [] => None
  end.

(** The optional fraction [\.[0-9]+]. *)
Definition match_frac (s : str) : option (str * str) :=
  match s with
  | c :: r =>
      if (c =? 46)%N then
        match span_digits r with
        | ([], _) => None
        | (ds, rest) => Some (ds, rest)
        end
      else None
  | [] => None
  end.

(** The optional exponent [[eE][-+]?[0-9]+]. *)
Definition match_exp (s : str) : option (Z * str) :=
  match s with
  | c :: r =>
      if ((c =? 101) || (c =? 69))%N then
        let (neg, r1) :=
          match r with
          | sg :: r' =>
              if (sg =? 45)%N then (true, r')
              else if (sg =? 43)%N then (false, r') else (false, r)
          | [] => (false, r)
          end in
        match span_digits r1 with
        | ([], _) => None
        | (ds, rest) =>
            Some (if neg then (- digits_value ds)%Z else digits_value ds, rest)
        end
      else None
  | [] => None
  end.

(** [match_number]: [NUMBER_RE.match] and the conversion of its groups. *)
Definition match_number (s : str) : option (value * str) :=
  let (neg, s1) :=
    match s with
    | c :: r => if (c =? 45)%N then (true, r) else (false, s)
    | [] => (false, s)
    end in
  match match_int s1 with
  | None => None
  | Some (ds, r) =>
      let sign (z : Z) := if neg then (- z)%Z else z in
      match match_frac r, match_exp (match match_frac r with Some (_, r') => r' | None => r end) with
      | None, None => Some (JInt (sign (digits_value ds)), r)
      | Some (fs, r'), None =>
          Some (JFloat (sign (digits_value (ds ++ fs))) (- Z.of_nat (length fs)), r')
      | None, Some (e, r'') => Some (JFloat (sign (digits_value ds)) e, r'')
      | Some (fs, _), Some (e, r'') =>
          Some (JFloat (sign (digits_value (ds ++ fs))) (e - Z.of_nat (length fs)), r'')
      end
  end.

(** What the scanner is in the middle of: a value, the members of an
    object (positioned after the opening quote of a key), or the items of
    an array. *)
Inductive goal : Type :=
| GValue
| GMembers (acc : list (str * value))
| GItems (acc : list value).


(** The two limits: the nested arrays and objects the decoder can enter, and
    [sys.get_int_max_str_digits()], where zero is no limit. *)
Record limits : Type := {
  max_depth : nat;
  max_digits : nat
}.

(** Which limit a text exceeds. *)
Inductive excess : Type :=
| TooDeep      (* RecursionError *)
| TooLong.     (* ValueError: exceeds the limit for integer string conversion *)

(** What the decoder answers: a result, [JSONDecodeError], or a limit. *)
Inductive scanned (A : Type) : Type :=
| Got (a : A)
| Bad
| Over (x : excess).
Arguments Bad {A}.
Arguments Over {A} x.

(** The digits of the integer part that [NUMBER_RE] matches at [s]. *)
Definition int_digits (s : str) : nat :=
  let s1 :=
    match s with
    | c :: r => if (c =? 45)%N then r else s
    | [] => s
    end in
  match match_int s1 with
  | Some (ds, _) => length ds
  | None => 0
  end.

(** [int(...)] refuses an integer literal [s] of more than [digits]
    digits. *)
Definition too_long (digits : nat) (v : value) (s : str) : bool :=
  match v with
  | JInt _ => (0 <? digits) && (digits <? int_digits s)
  | _ => false
  end.

(** [scan_once], [JSONObject] and [JSONArray], which call each other; [n]
    bounds the number of calls and [d] is the number of arrays and objects
    that can still be entered. *)
Fixpoint scan (digits : nat) (n : nat) (d : nat) (g : goal) (s : str)
  : scanned (value * str) :=
  match n with
  | O => Bad
  | S n' =>
      match g with
      | GValue =>
          match s with
          | [] => Bad
          | c :: r =>
              if (c =? 34)%N then
                match scanstring r [] with
                | Some (k, r') => Got (JString k, r')
                | None => Bad
                end
              else if (c =? 123)%N then
                match d with
                | O => Over TooDeep
                | S d' =>
                    match skip_ws r with
                    | c1 :: r1 =>
                        if (c1 =? 125)%N then Got (JObject [], r1)
                        else if (c1 =? 34)%N then scan digits n' d' (GMembers []) r1
                        else Bad
                    | [] => Bad
                    end
                end
              else if (c =? 91)%N then
                match d with
                | O => Over TooDeep
                | S d' =>
                    match skip_ws r with
                    | c1 :: r1 =>
                        if (c1 =? 93)%N then Got (JArray [], r1)
                        else scan digits n' d' (GItems []) (c1 :: r1)
                    | [] => Bad
                    end
                end
              else if startswith (lit "null") s then Got (JNull, skipn 4 s)
              else if startswith (lit "true") s then Got (JBool true, skipn 4 s)
              else if startswith (lit "false") s then Got (JBool false, skipn 5 s)
              else
                match match_number s with
                | Some (v, r') =>
                    if too_long digits v s then Over TooLong else Got (v, r')
                | None =>
                    if startswith (lit "NaN") s then Got (JNaN, skipn 3 s)
                    else if startswith (lit "Infinity") s then Got (JInf false, skipn 8 s)
                    else if startswith (lit "-Infinity") s then Got (JInf true, skipn 9 s)
                    else Bad
                end
          end
      | GMembers acc =>
          match scanstring s [] with
          | None => Bad
          | Some (key, r) =>
              match skip_ws r with
              | c :: r1 =>
                  if (c =? 58)%N then
                    match scan digits n' d GValue (skip_ws r1) with
                    | Bad => Bad
                    | Over x => Over x
                    | Got (v, r2) =>
                        match skip_ws r2 with
                        | c2 :: r3 =>
                            if (c2 =? 125)%N then Got (JObject (rev ((key, v) :: acc)), r3)
                            else if (c2 =? 44)%N then
                              match skip_ws r3 with
                              | c3 :: r4 =>
                                  if (c3 =? 34)%N
                                  then scan digits n' d (GMembers ((key, v) :: acc)) r4
                                  else Bad
                              | [] => Bad
                              end
                            else Bad
                        | [] => Bad
                        end
                    end
                  else Bad
              | [] => Bad
              end
          end
      | GItems acc =>
          match scan digits n' d GValue s with
          | Bad => Bad
          | Over x => Over x
          | Got (v, r) =>
              match skip_ws r with
              | c :: r1 =>
                  if (c =? 93)%N then Got (JArray (rev (v :: acc)), r1)
                  else if (c =? 44)%N then scan digits n' d (GItems (v :: acc)) (skip_ws r1)
                  else Bad
              | [] => Bad
              end
          end
      end
  end.


(** [json.loads(s)] for a [str] under the limits [L]: a leading byte-order
    mark is refused, then [JSONDecoder.decode]: whitespace, one value,
    whitespace, end of text.  The bound on the calls is one that no text
    reaches. *)
Definition json_loads (L : limits) (s : str) : scanned value :=
  if startswith [65279%N] s then Bad
  else
    match scan (max_digits L) (S (2 * length s)) (max_depth L) GValue (skip_ws s) with
    | Got (v, r) => match skip_ws r with [] => Got v | _ :: _ => Bad end
    | Bad => Bad
    | Over x => Over x
    end.

(** The value that a text denotes: what the decoder answers when no limit
    is in its way (a text cannot nest deeper than it is long). *)
Definition loads (s : str) : option value :=
  match json_loads {| max_depth := length s; max_digits := 0 |} s with
  | Got v => Some v
  | _ => None
  end.

End Json.
Import Json.


(** ** The run's inputs *)

(** [args]: the parsed command line of a normal run.  The [--init] flow
    (interactive configuration set-up) is outside the pipeline and is not
    modelled. *)
Record Args : Type := {
  push : bool;
  yes : bool;
  branch : bool;
  extra_info : option str;
  output : option str
}.

(** [config]: the settings of [~/.cmmt.yml], each value typed as the data
    model of the specification has it; [None] is an absent (or null) key. *)
Record Config : Type := {
  openai_api_key : option str;
  model : option str;
  base_url : option str;
  max_tokens : option Z;
  ignore_files : list str;
  config_extra_info : option str
}.

(** The truth value of an optional string: [None] and the empty string are
    false. *)
Definition nonempty (o : option str) : bool :=
  match o with
  | Some (_ :: _) => true
  | _ => false
  end.

Definition text_of (o : option str) : str :=
  match o with Some s => s | None => [] end.

Definition DEFAULT_MODEL : str := lit "gpt-3.5-turbo".

(** ** The prompt builder *)

Definition nl : str := [10%N].

(** One line of a literal, with its line feed. *)
Definition ln (s : string) : str := lit s ++ nl.

(** A literal written with ' where the text has a double quote. *)
Definition sq (s : string) : str :=
  List.map (fun c => if (c =? 39)%N then 34%N else c) (lit s).

Definition task_intro : str :=
  ln "# Task" ++
  ln "I will provide you with the output of `git status` and `git diff`. Based on this, generate:" ++
  ln "- A **Commit Message** that follows the **Conventional Commits** specification.".

Definition task_branch : str :=
  ln "- A **Branch Name** that follows the specification.".

Definition commit_spec : str :=
  ln "# Requirements" ++
  ln "## Commit Message Specification" ++
  ln "- **Header**: `<type>(<scope>): <short summary>` (no more than 50 characters)" ++
  ln "  - Type: feat, fix, docs, style, refactor, perf, test, build, ci, chore, revert." ++
  ln "  - Scope: Optional, indicates the module (e.g., auth, ui, parser, gradle)." ++
  ln "  - Summary: Starts with a verb in present tense, lowercase first letter, no period at the end, describes the changes in detail." ++
  ln "- **Body**: (if necessary) Detailed explanation of the reason and logic for the changes." ++
  ln "- **Footer**: (if necessary) List Breaking Changes or related Issue IDs." ++
  ln "Example:" ++
  ln "```" ++
  ln "feat(auth): add login with OAuth 2.0" ++
  ln "" ++
  ln "- Implement OAuth 2.0 login flow using Google and Facebook." ++
  ln "- Update user model to store OAuth tokens." ++
  ln "" ++
  ln "BREAKING CHANGE: user passwords are no longer stored in the database." ++
  ln "Closes #123" ++
  ln "```".

Definition branch_spec : str :=
  ln "## Branch Name Specification" ++
  ln "- Format: `type/short-description` (e.g., feat/login-api, fix/overflow-issue)" ++
  ln "- Use lowercase letters, separate words with hyphens `-`." ++
  ln "- Types: feat, fix, docs, style, refactor, perf, test, chore.".

Definition output_format : str :=
  ln "# Important" ++
  ln "You must strictly follow the specifications without any deviations." ++
  ln "# Output Format" ++
  lit "You can only output content similar to the following: ".

Definition extra_heading : str := ln "# Extra Information".

Definition build_prompt (status diff : str) (args : Args) (config : Config) : str :=
  let format_str := sq "{'commit_message': '...'" in
  let format_str :=
    if branch args then format_str ++ sq ", 'branch_name': '...'" else format_str in
  let format_str := format_str ++ lit "}" in
  let prompt := task_intro in
  let prompt := if branch args then prompt ++ task_branch else prompt in
  let prompt := prompt ++ commit_spec in
  let prompt := if branch args then prompt ++ branch_spec else prompt in
  let prompt := prompt ++ (output_format ++ format_str ++ nl) in
  let prompt :=
    if nonempty (extra_info args) || nonempty (config_extra_info config) then
      let prompt := prompt ++ extra_heading in
      let prompt :=
        if nonempty (config_extra_info config)
        then prompt ++ (text_of (config_extra_info config) ++ nl) else prompt in
      if nonempty (extra_info args)
      then prompt ++ (text_of (extra_info args) ++ nl) else prompt
    else prompt in
  prompt ++
    (ln "# Context" ++ ln "## Git status:" ++ status ++ nl ++
     ln "## Git diff:" ++ diff ++ nl).

(** ** The world outside: processes, terminal, files, estimator, backend

    A run is a function of an environment that answers each interaction,
    knowing everything that happened before it, and it leaves a trace of
    its interactions in the order they happened.

    The environment answers with the outcomes that [subprocess.run], the
    estimator and the backend have for this program.  A command exits with
    status zero, raises [CalledProcessError], or, where its output is
    captured as text, raises [UnicodeDecodeError] for output that cannot be
    decoded; before any process starts, an argument that is not a string is
    a [TypeError], one that the file system encoding cannot encode is a
    [UnicodeEncodeError], and one that holds U+0000 is a [ValueError].  The
    estimator counts, raises [KeyError], or fails with another exception.
    The backend replies or raises.  The decoder of a reply works under the
    interpreter's limits.

    Taken for granted: that [git] can be started, that the terminal accepts
    what is printed and answers what is asked, that the output file can be
    written, and that the texts of the command line and of the settings can
    be printed and passed to a process.  A text of the reply that holds a
    surrogate code point is refused by a terminal with a strict encoding;
    the properties below that depend on such a print say so. *)

(** A part of a printed line: literal text, a formatted value, or the text
    of a caught exception. *)
Inductive piece : Type :=
| Lit (s : str)
| Val (v : value)
| Exc.

Record Usage : Type := {
  total_tokens : Z;
  prompt_tokens : Z;
  completion_tokens : Z
}.

(** The arguments of [OpenAI(...)]. *)
Record Client : Type := {
  api_key : str;
  client_base_url : option str
}.

(** The request of [client.chat.completions.create]. *)
Record Request : Type := {
  req_model : str;
  req_content : str;
  req_max_tokens : option Z
}.

Inductive event : Type :=
| EvRun (argv : list str) (result : option str)
    (* subprocess.run(argv, check=True): the standard output of a command
       that exited with status zero, or None for CalledProcessError *)
| EvGarbled (argv : list str)
    (* a command whose captured output cannot be decoded: UnicodeDecodeError *)
| EvPrint (line : list piece)
| EvInput (prompt reply : str)
| EvWrite (path content : str)
| EvEncode (model_name text : str) (count : option nat)
    (* tiktoken: the token count, or None for the KeyError of an unknown model *)
| EvEncodeFault (model_name text : str)
    (* tiktoken: any other exception *)
| EvChat (client : Client) (request : Request) (reply : option (str * option Usage)).
    (* the message content and the usage, or None for any exception *)

Record Env : Type := {
  process : list event -> list str -> option str;
    (* a started command: its standard output, or None for CalledProcessError *)
  undecodable : list event -> list str -> bool;
    (* asked of a command that does not end in CalledProcessError: its
       output cannot be decoded *)
  stdin : list event -> str -> str;
  encoding : list event -> str -> str -> option nat;
  estimator_fault : list event -> str -> str -> bool;
  completions : list event -> Client -> Request -> option (str * option Usage);
  interpreter : limits
}.

(** The exceptions that no handler of the program catches.
    [EstimatorError] stands for whatever the estimator raises that is not a
    [KeyError]. *)
Inductive exn : Type :=
| KeyError
| TypeError
| ValueError
| RecursionError
| UnicodeDecodeError
| UnicodeEncodeError
| EstimatorError.

Inductive outcome (A : Type) : Type :=
| Returns (a : A)
| Raises (e : exn).
Arguments Raises {A} e.

Definition IO (A : Type) : Type := Env -> list event -> outcome A * list event.

Definition ret {A : Type} (a : A) : IO A := fun _ tr => (Returns a, tr).

Definition raise {A : Type} (e : exn) : IO A := fun _ tr => (Raises e, tr).

Definition bind {A B : Type} (m : IO A) (k : A -> IO B) : IO B :=
  fun env tr =>
    match m env tr with
    | (Returns a, tr') => k a env tr'
    | (Raises e, tr') => (Raises e, tr')
    end.

Declare Scope io_scope.
Delimit Scope io_scope with io.
Notation "x <- m ;; k" := (bind m (fun x => k))
  (at level 100, m at next level, right associativity) : io_scope.
Notation "m ;; k" := (bind m (fun _ => k))
  (at level 100, right associativity) : io_scope.
Open Scope io_scope.

Definition print (line : list piece) : IO unit :=
  fun _ tr => (Returns tt, tr ++ [EvPrint line]).

Definition input (prompt : str) : IO str :=
  fun env tr =>
    let reply := stdin env tr prompt in
    (Returns reply, tr ++ [EvInput prompt reply]).

Definition write_file (path content : str) : IO unit :=
  fun _ tr => (Returns tt, tr ++ [EvWrite path content]).

(** [tiktoken.encoding_for_model(model)] and [len(enc.encode(text))] under
    [except KeyError]. *)
Definition encode_count (model_name text : str) : IO (option nat) :=
  fun env tr =>
    if estimator_fault env tr model_name text then
      (Raises EstimatorError, tr ++ [EvEncodeFault model_name text])
    else
      let n := encoding env tr model_name text in
      (Returns n, tr ++ [EvEncode model_name text n]).

Definition create_completion (client : Client) (request : Request)
  : IO (option (str * option Usage)) :=
  fun env tr =>
    let r := completions env tr client request in
    (Returns r, tr ++ [EvChat client request r]).

(** A surrogate that the surrogateescape handler encodes, U+DC80 to U+DCFF. *)
Definition escapable (c : N) : bool := ((56448 <=? c) && (c <=? 56575))%N.

(** What passing [s] as an argument of a process raises: [os.fsencode]
    under the UTF-8 file system encoding refuses a surrogate that it cannot
    escape, and an encoded argument cannot hold a null byte. *)
Definition arg_error (s : str) : option exn :=
  if existsb (fun c => is_surrogate c && negb (escapable c)) s
  then Some UnicodeEncodeError
  else if existsb (N.eqb 0) s then Some ValueError
  else None.

Definition passable (s : str) : bool :=
  match arg_error s with
  | None => true
  | Some _ => false
  end.

(** The arguments of a command, converted one after the other: the first
    that is not a string or cannot be passed raises. *)
Fixpoint argv_strings (argv : list value) : exn + list str :=
  match argv with
  | [] => inr []
  | JString s :: rest =>
      match arg_error s with
      | Some e => inl e
      | None =>
          match argv_strings rest with
          | inr l => inr (s :: l)
          | inl e => inl e
          end
      end
  | _ :: _ => inl TypeError
  end.

(** What [subprocess.run(argv, check=True)] gives when it returns or raises
    [CalledProcessError]: the standard output, or [None].  A command with
    an argument that cannot be passed is not started and has no output. *)
Definition subprocess (env : Env) (tr : list event) (argv : list str) : option str :=
  if forallb passable argv then process env tr argv else None.

(** [subprocess.run(argv, check=True)] under [except CalledProcessError]:
    the result is the standard output, or [None] when the handler runs.  An
    argument that is refused raises before any process starts, and the
    handler does not catch it. *)
Definition subprocess_run (argv : list value) : IO (option str) :=
  fun env tr =>
    match argv_strings argv with
    | inl e => (Raises e, tr)
    | inr a =>
        let r := subprocess env tr a in
        (Returns r, tr ++ [EvRun a r])
    end.

(** [subprocess.run(argv, capture_output=True, text=True, check=True)] under
    [except CalledProcessError], for the arguments of the program and of
    the settings: output that cannot be decoded raises, and the handler does
    not catch it. *)
Definition subprocess_capture (argv : list str) : IO (option str) :=
  fun env tr =>
    match subprocess env tr argv with
    | None => (Returns None, tr ++ [EvRun argv None])
    | Some stdout =>
        if undecodable env tr argv
        then (Raises UnicodeDecodeError, tr ++ [EvGarbled argv])
        else (Returns (Some stdout), tr ++ [EvRun argv (Some stdout)])
    end.

(** ** The repository inspector *)

Definition status_command : list str :=
  [lit "git"; lit "status"; lit "--porcelain"; lit "--untracked-files=all"].

Definition get_git_status : IO (option str) :=
  result <- subprocess_capture status_command ;;
  match result with
  | Some stdout => ret (Some stdout)
  | None =>
      print [Lit (lit "Not in a git repository or git status failed.")] ;;
      ret None
  end.

Definition diff_command (config : Config) : list str :=
  [lit "git"; lit "diff"; lit "--staged"] ++
  flat_map (fun file => [lit "--"; lit ":(exclude)" ++ file]) (ignore_files config).

Definition get_git_diff (config : Config) : IO str :=
  result <- subprocess_capture (diff_command config) ;;
  match result with
  | Some stdout => ret stdout
  | None => ret []
  end.

(** ** The generation client *)

Definition call_openai (client : Client) (prompt : str) (config : Config)
  : IO (option str) :=
  reply <- create_completion client
    {| req_model := match model config with Some m => m | None => DEFAULT_MODEL end;
       req_content := prompt;
       req_max_tokens :=
         match max_tokens config with
         | Some n => if (n =? 0)%Z then None else Some n
         | None => None
         end |} ;;
  match reply with
  | Some (content, usage) =>
      let result := strip content in
      match usage with
      | Some u =>
          print [Lit (lit "Total tokens: "); Val (JInt (total_tokens u))] ;;
          print [Lit (lit "Prompt tokens: "); Val (JInt (prompt_tokens u))] ;;
          print [Lit (lit "Completion tokens: "); Val (JInt (completion_tokens u))] ;;
          ret (Some result)
      | None => ret (Some result)
      end
  | None =>
      print [Lit (lit "OpenAI API error: "); Exc] ;;
      ret None
  end.

(** ** The response parser *)

Definition fence_open : str := lit "```json".
Definition fence_close : str := lit "```".

(** The cleaning of the raw text that precedes decoding. *)
Definition clean (result : str) : str :=
  let result := strip result in
  let result := if startswith fence_open result then slice_from 7 result else result in
  let result := if endswith fence_close result then slice_to_minus 3 result else result in
  strip result.

(** The pair [(None, None)]. *)
Definition rejected : value * value := (JNull, JNull).

(** The exception of a limit of the decoder. *)
Definition limit_exn (x : excess) : exn :=
  match x with
  | TooDeep => RecursionError
  | TooLong => ValueError
  end.

Definition parse_response (result : str) (args : Args) : IO (value * value) :=
  fun env tr =>
  let result := clean result in
  match json_loads (interpreter env) result with
  | Got data =>
      match data with
      | JObject pairs =>
          match dict_get pairs (lit "commit_message") with
          | Some commit_msg =>
              let branch_name :=
                if branch args then
                  match dict_get pairs (lit "branch_name") with
                  | Some b => b
                  | None => JNull
                  end
                else JNull in
              ret (commit_msg, branch_name) env tr
          | None => raise KeyError env tr
          end
      | _ => raise TypeError env tr
      end
  | Bad =>
      (print [Lit (lit "AI Response: "); Val (JString result)] ;;
       print [Lit (lit "Failed to parse JSON response.")] ;;
       ret rejected) env tr
  | Over x => raise (limit_exn x) env tr
  end.

(** ** The command executor *)

Definition commit_command (commit_msg : value) : list value :=
  [JString (lit "git"); JString (lit "commit"); JString (lit "-m"); commit_msg].

Definition checkout_command (branch_name : value) : list value :=
  [JString (lit "git"); JString (lit "checkout"); JString (lit "-b"); branch_name].

(** [branch_name or "main"] *)
Definition push_target (branch_name : value) : value :=
  if truthy branch_name then branch_name else JString (lit "main").

Definition push_command (branch_name : value) : list value :=
  [JString (lit "git"); JString (lit "push"); JString (lit "-u");
   JString (lit "origin"); push_target branch_name].

Definition execute_git_commands (commit_msg branch_name : value) (args : Args)
  : IO bool :=
  committed <- subprocess_run (commit_command commit_msg) ;;
  match committed with
  | None => print [Lit (lit "Git commit failed: "); Exc] ;; ret false
  | Some _ =>
      print [Lit (lit "Committed.")] ;;
      checked_out <-
        (if truthy branch_name then
           r <- subprocess_run (checkout_command branch_name) ;;
           match r with
           | None => print [Lit (lit "Git checkout failed: "); Exc] ;; ret false
           | Some _ =>
               print [Lit (lit "Checked out to new branch: "); Val branch_name] ;;
               ret true
           end
         else ret true) ;;
      if checked_out : bool then
        if push args then
          r <- subprocess_run (push_command branch_name) ;;
          match r with
          | None => print [Lit (lit "Git push failed: "); Exc] ;; ret false
          | Some _ => print [Lit (lit "Pushed.")] ;; ret true
          end
        else ret true
      else ret false
  end.

(** ** The run orchestrator *)

(** [confirm.lower() == "y"]: the reply is [y] or [Y]. *)
Definition is_yes (confirm : str) : bool :=
  str_eqb confirm [121%N] || str_eqb confirm [89%N].

Definition main (args : Args) (config : Config) : IO unit :=
  if nonempty (openai_api_key config) then
    let client := {| api_key := text_of (openai_api_key config);
                     client_base_url :=
                       if nonempty (base_url config) then base_url config else None |} in
    status <- get_git_status ;;
    match status with
    | None => ret tt
    | Some status =>
        diff <- get_git_diff config ;;
        let prompt := build_prompt status diff args config in
        (if nonempty (output args) then
           write_file (text_of (output args)) prompt ;;
           print [Lit (lit "Prompt written to "); Val (JString (text_of (output args)))]
         else ret tt) ;;
        let model_name := match model config with Some m => m | None => DEFAULT_MODEL end in
        count <- encode_count model_name prompt ;;
        match count with
        | Some n => print [Lit (lit "Prompt token count: "); Val (JInt (Z.of_nat n))]
        | None =>
            print [Lit (lit "Warning: Unknown model for token counting.")] ;;
            print [Lit (lit "Prompt length (chars):"); Lit (lit " ");
                   Val (JInt (Z.of_nat (length prompt)))]
        end ;;
        go <- (if yes args then ret true
               else confirm <- input (lit "Generate commit message? (y/n): ") ;;
                    ret (is_yes confirm)) ;;
        if go : bool then
          result <- call_openai client prompt config ;;
          match result with
          | None => ret tt
          | Some result =>
              plan <- parse_response result args ;;
              let (commit_msg, branch_name) := plan : value * value in
              match commit_msg with
              | JNull => ret tt
              | _ =>
                  print [Lit (lit "Generated:")] ;;
                  (if truthy branch_name
                   then print [Lit (lit "Branch name: "); Val branch_name]
                   else ret tt) ;;
                  print [Lit (lit "Commit message: "); Val commit_msg] ;;
                  go <- (if yes args then ret true
                         else confirm <-
                                input (lit "Execute git commit and checkout? (y/n): ") ;;
                              ret (is_yes confirm)) ;;
                  if go : bool then
                    execute_git_commands commit_msg branch_name args ;; ret tt
                  else ret tt
              end
          end
        else ret tt
    end
  else
    print [Lit (lit "API key not found. Run --init first.")].

(** The exit status of the interpreter: zero when [main] returns, one when
    an exception reaches the top level. *)
Definition exit_status (o : outcome unit) : Z :=
  match o with
  | Returns _ => 0
  | Raises _ => 1
  end.

(** ** Reading a run *)

(** The commands a trace records, each with [false] when it ended in
    [CalledProcessError]. *)
Fixpoint runs (tr : list event) : list (list str * bool) :=
  match tr with
  | [] => []
  | EvRun argv r :: rest =>
      (argv, match r with Some _ => true | None => false end) :: runs rest
  | EvGarbled argv :: rest => (argv, true) :: runs rest
  | _ :: rest => runs rest
  end.

(** [needle] occurs in [s]. *)
Definition occurs (needle s : str) : Prop :=
  exists pre post, s = pre ++ needle ++ post.

(** ** Sample inputs *)

Definition plain_args : Args :=
  {| push := false; yes := true; branch := false; extra_info := None; output := None |}.

Definition branch_push_args : Args :=
  {| push := true; yes := true; branch := true; extra_info := None; output := None |}.

Definition sample_config : Config :=
  {| openai_api_key := Some (lit "sk-test"); model := None; base_url := None;
     max_tokens := None; ignore_files := []; config_extra_info := None |}.

(** The limits of an interpreter as it is installed: a thousand nested
    calls, 4300 digits. *)
Definition default_limits : limits :=
  {| max_depth := 1000; max_digits := 4300 |}.

(** An environment in which every command fails, the terminal answers with
    an empty line, the estimator does not know the model and the backend
    errors. *)
Definition silent_env : Env :=
  {| process := fun _ _ => None;
     undecodable := fun _ _ => false;
     stdin := fun _ _ => [];
     encoding := fun _ _ _ => None;
     estimator_fault := fun _ _ _ => false;
     completions := fun _ _ _ => None;
     interpreter := default_limits |}.

(** An environment in which the commands named by [failing] (the word after
    [git]) fail and every other command succeeds with empty output, and the
    backend replies with [content]. *)
Definition scripted_env (failing : list str) (content : str) : Env :=
  {| process := fun _ argv =>
       if existsb (str_eqb (nth 1 argv [])) failing then None else Some [];
     undecodable := fun _ _ => false;
     stdin := fun _ _ => lit "y";
     encoding := fun _ _ _ => None;
     estimator_fault := fun _ _ _ => false;
     completions := fun _ _ _ => Some (content, None);
     interpreter := default_limits |}.


(** ** The laws as the specification words them *)




(** ** The parts of a prompt *)

(** The fixed text up to the output format. *)
Definition prompt_head (with_branch : bool) : str :=
  task_intro ++ (if with_branch then task_branch else []) ++
  commit_spec ++ (if with_branch then branch_spec else []) ++
  output_format ++
  sq "{'commit_message': '...'" ++
  (if with_branch then sq ", 'branch_name': '...'" else []) ++ lit "}" ++ nl.

(** The extra-information section. *)
Definition prompt_extras (args : Args) (config : Config) : str :=
  if nonempty (extra_info args) || nonempty (config_extra_info config) then
    extra_heading ++
    (if nonempty (config_extra_info config)
     then text_of (config_extra_info config) ++ nl else []) ++
    (if nonempty (extra_info args) then text_of (extra_info args) ++ nl else [])
  else [].

(** The context section. *)
Definition prompt_context (status diff : str) : str :=
  ln "# Context" ++ ln "## Git status:" ++ status ++ nl ++
  ln "## Git diff:" ++ diff ++ nl.


(** [k] has a part, not all of it, at the end of [x]: an occurrence of [k]
    could start in [x] and go on in what follows. *)
Definition overlaps (k x : str) : bool :=
  existsb (fun i => endswith (firstn i k) x) (seq 1 (length k - 1)).

(** Inclusion as worded: the branch-name block is in the prompt exactly when
    a branch is wanted, and the extra-information heading exactly when one
    of the two extra texts is not empty. *)
Definition inclusion_law (status diff : str) (args : Args) (config : Config)
  : Prop :=
  (occurs branch_spec (build_prompt status diff args config)
   <-> branch args = true) /\
  (occurs extra_heading (build_prompt status diff args config)
   <-> nonempty (extra_info args) || nonempty (config_extra_info config) = true).

Definition other_args : Args :=
  {| push := true; yes := false; branch := false; extra_info := None;
     output := Some (lit "prompt.txt") |}.

Definition other_config : Config :=
  {| openai_api_key := None; model := Some (lit "gpt-4o"); base_url := None;
     max_tokens := Some 256%Z; ignore_files := [lit "*.lock"];
     config_extra_info := None |}.


(** Options as a user gives them who pastes the branch-name block into
    the extra information. *)
Definition pasted_args : Args :=
  {| push := false; yes := true; branch := false;
     extra_info := Some (removelast branch_spec); output := None |}.

Definition full_args : Args :=
  {| push := false; yes := true; branch := true;
     extra_info := Some (lit "Ticket 42."); output := None |}.

Definition full_config : Config :=
  {| openai_api_key := Some (lit "sk-test"); model := None; base_url := None;
     max_tokens := None; ignore_files := [];
     config_extra_info := Some (lit "Write in English.") |}.


(** ** Commit plans *)


Definition commit_argv (m : str) : list str :=
  [lit "git"; lit "commit"; lit "-m"; m].

Definition checkout_argv (b : str) : list str :=
  [lit "git"; lit "checkout"; lit "-b"; b].

Definition push_argv (target : str) : list str :=
  [lit "git"; lit "push"; lit "-u"; lit "origin"; target].

(** The branch a push names: the plan's when the plan has one, [main]
    otherwise. *)
Definition push_branch (b : option str) : str :=
  if nonempty b then text_of b else lit "main".

(** The steps of a plan under the options, in their order. *)
Definition planned (m : str) (b : option str) (args : Args) : list (list str) :=
  [commit_argv m] ++
  (if nonempty b then [checkout_argv (text_of b)] else []) ++
  (if push args then [push_argv (push_branch b)] else []).


(** The word after [git]. *)
Definition verb (argv : list str) : str := nth 1 argv [].

(** An event that is a print or a command. *)
Definition print_or_run (ev : event) : bool :=
  match ev with
  | EvPrint _ | EvRun _ _ => true
  | _ => false
  end.


(** ** How a run ended, read from its trace *)

(** A fatal condition that the program handles: a command other than the
    diff query that ended in [CalledProcessError] (the status query, the
    commit, the branch creation or the push), an error of the backend, or a
    reply that the decoder, under the limits [L], refuses with
    [JSONDecodeError] once it is cleaned, and that holds no surrogate, so
    that it can be printed. *)
Definition fatal_event (L : limits) (ev : event) : bool :=
  match ev with
  | EvRun argv None => negb (str_eqb (verb argv) (lit "diff"))
  | EvChat _ _ None => true
  | EvChat _ _ (Some (content, _)) =>
      match json_loads L (clean (strip content)) with
      | Bad => negb (existsb is_surrogate (clean (strip content)))
      | _ => false
      end
  | _ => false
  end.

(** The user declined a confirmation. *)
Definition declined (ev : event) : bool :=
  match ev with
  | EvInput _ reply => negb (is_yes reply)
  | _ => false
  end.

(** A command with the given verb exited with status zero. *)
Definition succeeded (v : str) (tr : list event) : bool :=
  existsb (fun p => snd p && str_eqb (verb (fst p)) v) (runs tr).

(** The run announced a branch name: the plan has one. *)
Definition announces_branch (ev : event) : bool :=
  match ev with
  | EvPrint [Lit s; Val _] => str_eqb s (lit "Branch name: ")
  | _ => false
  end.

(** Full completion: the commit succeeded, the branch creation succeeded
    when the plan has a branch name, and the push succeeded when the push
    option is set. *)
Definition completed (args : Args) (tr : list event) : bool :=
  succeeded (lit "commit") tr &&
  implb (existsb announces_branch tr) (succeeded (lit "checkout") tr) &&
  implb (push args) (succeeded (lit "push") tr).

(** The exit status as worded: zero on full completion and on a declined
    confirmation, not zero on a fatal condition. *)
Definition exit_law (args : Args) (config : Config) (env : Env) : Prop :=
  let r := main args config env [] in
  (completed args (snd r) = true \/ existsb declined (snd r) = true ->
   exit_status (fst r) = 0%Z) /\
  (nonempty (openai_api_key config) = false \/
   existsb (fatal_event (interpreter env)) (snd r) = true ->
   exit_status (fst r) <> 0%Z).


(** ** More readings of values and events *)

Definition is_string (v : value) : bool :=
  match v with
  | JString _ => true
  | _ => false
  end.

Definition is_print (ev : event) : bool :=
  match ev with
  | EvPrint _ => true
  | _ => false
  end.


Definition sample_usage : Usage :=
  {| total_tokens := 30; prompt_tokens := 20; completion_tokens := 10 |}.

(** An environment whose backend replies with [content] and a usage, and in
    which every command succeeds. *)
Definition replying_env (content : str) : Env :=
  {| process := fun _ _ => Some [];
     undecodable := fun _ _ => false;
     stdin := fun _ _ => lit "y";
     encoding := fun _ _ _ => Some 7;
     estimator_fault := fun _ _ _ => false;
     completions := fun _ _ _ => Some (content, Some sample_usage);
     interpreter := default_limits |}.

(** ** What a trace records, by kind *)

(** The questions asked on the terminal, each with its reply. *)
Fixpoint questions (tr : list event) : list (str * str) :=
  match tr with
  | [] => []
  | EvInput q r :: rest => (q, r) :: questions rest
  | _ :: rest => questions rest
  end.

(** The calls of the backend. *)
Fixpoint chats (tr : list event)
  : list (Client * Request * option (str * option Usage)) :=
  match tr with
  | [] => []
  | EvChat c q r :: rest => (c, q, r) :: chats rest
  | _ :: rest => chats rest
  end.

(** The files written. *)
Fixpoint writes (tr : list event) : list (str * str) :=
  match tr with
  | [] => []
  | EvWrite p c :: rest => (p, c) :: writes rest
  | _ :: rest => writes rest
  end.

(** The texts handed to the estimator, each with the model named. *)
Fixpoint estimates (tr : list event) : list (str * str) :=
  match tr with
  | [] => []
  | EvEncode m t _ :: rest => (m, t) :: estimates rest
  | EvEncodeFault m t :: rest => (m, t) :: estimates rest
  | _ :: rest => estimates rest
  end.

(** An event of the terminal or of a command. *)
Definition local_event (ev : event) : bool :=
  match ev with
  | EvPrint _ | EvRun _ _ | EvInput _ _ => true
  | _ => false
  end.

(** The branch name of a plan as the steps read it: only a string names a
    branch. *)
Definition as_branch (v : value) : option str :=
  match v with
  | JString s => Some s
  | _ => None
  end.

(** [data.get("branch_name") if args.branch else None] *)
Definition branch_of (pairs : list (str * value)) (args : Args) : value :=
  if branch args then
    match dict_get pairs (lit "branch_name") with
    | Some b => b
    | None => JNull
    end
  else JNull.


(** ** The stages of a run *)

(** What [main] does with a plan: the part that follows the parse. *)
Definition handle_plan (commit_msg branch_name : value) (args : Args) : IO unit :=
  match commit_msg with
  | JNull => ret tt
  | _ =>
      print [Lit (lit "Generated:")] ;;
      (if truthy branch_name
       then print [Lit (lit "Branch name: "); Val branch_name]
       else ret tt) ;;
      print [Lit (lit "Commit message: "); Val commit_msg] ;;
      go <- (if yes args then ret true
             else confirm <-
                    input (lit "Execute git commit and checkout? (y/n): ") ;;
                  ret (is_yes confirm)) ;;
      if go : bool then
        execute_git_commands commit_msg branch_name args ;; ret tt
      else ret tt
  end.

(** What [main] does with the backend's reply: the parse and what follows. *)
Definition handle_reply (result : str) (args : Args) : IO unit :=
  plan <- parse_response result args ;;
  let (commit_msg, branch_name) := plan : value * value in
  handle_plan commit_msg branch_name args.

Definition q_generate : str := lit "Generate commit message? (y/n): ".
Definition q_execute : str := lit "Execute git commit and checkout? (y/n): ".

Definition client_of (config : Config) : Client :=
  {| api_key := text_of (openai_api_key config);
     client_base_url := if nonempty (base_url config) then base_url config else None |}.

Definition model_of (config : Config) : str :=
  match model config with Some m => m | None => DEFAULT_MODEL end.

Definition request_of (prompt : str) (config : Config) : Request :=
  {| req_model := model_of config;
     req_content := prompt;
     req_max_tokens :=
       match max_tokens config with
       | Some n => if (n =? 0)%Z then None else Some n
       | None => None
       end |}.

(** The trace of the optional copy of the prompt. *)
Definition copied (args : Args) (prompt : str) : list event :=
  if nonempty (output args)
  then [EvWrite (text_of (output args)) prompt;
        EvPrint [Lit (lit "Prompt written to "); Val (JString (text_of (output args)))]]
  else [].

(** The trace of the optional copy of the prompt and of the token count,
    for the estimator's answer. *)
Definition prepared (args : Args) (config : Config) (prompt : str)
  (count : option nat) : list event :=
  copied args prompt ++
  [EvEncode (model_of config) prompt count] ++
  match count with
  | Some n => [EvPrint [Lit (lit "Prompt token count: "); Val (JInt (Z.of_nat n))]]
  | None =>
      [EvPrint [Lit (lit "Warning: Unknown model for token counting.")];
       EvPrint [Lit (lit "Prompt length (chars):"); Lit (lit " ");
                Val (JInt (Z.of_nat (length prompt)))]]
  end.

(** The trace up to the first confirmation, for a status output, the diff
    query's result and the estimator's answer. *)
Definition inspected (args : Args) (config : Config)
  (status : str) (diff : option str) (count : option nat) : list event :=
  [EvRun status_command (Some status); EvRun (diff_command config) diff] ++
  prepared args config (build_prompt status (text_of diff) args config) count.

(** The trace of the first confirmation when the run goes on. *)
Definition passed_gate (args : Args) (gate : list event) : Prop :=
  (yes args = true /\ gate = []) \/
  (yes args = false /\
   exists reply, is_yes reply = true /\ gate = [EvInput q_generate reply]).

Definition usage_lines (usage : option Usage) : list event :=
  match usage with
  | Some u =>
      [EvPrint [Lit (lit "Total tokens: "); Val (JInt (total_tokens u))];
       EvPrint [Lit (lit "Prompt tokens: "); Val (JInt (prompt_tokens u))];
       EvPrint [Lit (lit "Completion tokens: "); Val (JInt (completion_tokens u))]]
  | None => []
  end.

(** The courses a run can take. *)
Inductive anatomy (args : Args) (config : Config) (env : Env)
  : outcome unit * list event -> Prop :=
| NoCredential :
    nonempty (openai_api_key config) = false ->
    anatomy args config env
      (Returns tt, [EvPrint [Lit (lit "API key not found. Run --init first.")]])
| NoRepository :
    nonempty (openai_api_key config) = true ->
    anatomy args config env
      (Returns tt,
       [EvRun status_command None;
        EvPrint [Lit (lit "Not in a git repository or git status failed.")]])
| StatusGarbled :
    nonempty (openai_api_key config) = true ->
    anatomy args config env
      (Raises UnicodeDecodeError, [EvGarbled status_command])
| DiffGarbled status :
    nonempty (openai_api_key config) = true ->
    anatomy args config env
      (Raises UnicodeDecodeError,
       [EvRun status_command (Some status); EvGarbled (diff_command config)])
| EstimatorFailed status diff :
    nonempty (openai_api_key config) = true ->
    anatomy args config env
      (Raises EstimatorError,
       [EvRun status_command (Some status); EvRun (diff_command config) diff] ++
       copied args (build_prompt status (text_of diff) args config) ++
       [EvEncodeFault (model_of config)
          (build_prompt status (text_of diff) args config)])
| GenerationDeclined status diff count reply :
    nonempty (openai_api_key config) = true ->
    yes args = false -> is_yes reply = false ->
    anatomy args config env
      (Returns tt, inspected args config status diff count ++ [EvInput q_generate reply])
| BackendFailed status diff count gate :
    nonempty (openai_api_key config) = true ->
    passed_gate args gate ->
    anatomy args config env
      (Returns tt,
       inspected args config status diff count ++ gate ++
       [EvChat (client_of config)
          (request_of (build_prompt status (text_of diff) args config) config) None;
        EvPrint [Lit (lit "OpenAI API error: "); Exc]])
| Replied status diff count gate content usage :
    nonempty (openai_api_key config) = true ->
    passed_gate args gate ->
    anatomy args config env
      (handle_reply (strip content) args env
         (inspected args config status diff count ++ gate ++
          [EvChat (client_of config)
             (request_of (build_prompt status (text_of diff) args config) config)
             (Some (content, usage))] ++
          usage_lines usage)).

(** A decoded reply that is not an object, or an object without the
    [commit_message] key. *)
Definition misshapen (v : value) : bool :=
  match v with
  | JObject pairs =>
      match dict_get pairs (lit "commit_message") with
      | Some _ => false
      | None => true
      end
  | _ => true
  end.

(** ** Texts that the system takes *)



(** ** The JSON text of a plan

    The round trip of the specification starts from a plan that is
    serialized.  The serialization is that of [json.dumps] with its default
    separators, with [ensure_ascii] set (the default) or not. *)






(** ** More laws as the specification words them *)

(** The diff query as worded: it never fails. *)
Definition diff_never_fails_law (config : Config) (env : Env) (tr : list event)
  : Prop :=
  exists diff, fst (get_git_diff config env tr) = Returns diff.

(** An environment in which every command exits with status zero and the
    output of the diff query cannot be decoded. *)
Definition garbling_env : Env :=
  {| process := fun _ _ => Some [];
     undecodable := fun _ argv => str_eqb (verb argv) (lit "diff");
     stdin := fun _ _ => lit "y";
     encoding := fun _ _ _ => Some 7;
     estimator_fault := fun _ _ _ => false;
     completions := fun _ _ _ => None;
     interpreter := default_limits |}.

(** The announcement of a plan. *)
Definition announced (cm bn : value) : list event :=
  [EvPrint [Lit (lit "Generated:")]] ++
  (if truthy bn then [EvPrint [Lit (lit "Branch name: "); Val bn]] else []) ++
  [EvPrint [Lit (lit "Commit message: "); Val cm]].

(** * Properties *)

(** ** Text *)

Section TextFacts.

Lemma startswith_app (p s : str) : startswith p (p ++ s) = true.
Proof.
  induction p as [|a p IH]; simpl; [reflexivity|].
  now rewrite N.eqb_refl, IH.
Qed.

Lemma startswith_spec (p s : str) :
  startswith p s = true <-> exists r, s = p ++ r.
Proof.
  split.
  - revert s; induction p as [|a p IH]; intros s H.
    + now exists s.
    + destruct s as [|b s]; simpl in H; [discriminate|].
      apply andb_prop in H as [Hab Hps].
      apply N.eqb_eq in Hab; subst b.
      destruct (IH _ Hps) as [r ->]. now exists r.
  - intros [r ->]. apply startswith_app.
Qed.

Lemma endswith_app (p s : str) : endswith p (s ++ p) = true.
Proof.
  unfold endswith. rewrite rev_app_distr. apply startswith_app.
Qed.

Lemma slice_from_app (p s : str) : slice_from (length p) (p ++ s) = s.
Proof.
  unfold slice_from. induction p; simpl; auto.
Qed.

Lemma slice_to_minus_app (p s : str) : slice_to_minus (length p) (s ++ p) = s.
Proof.
  unfold slice_to_minus. rewrite length_app.
  replace (length s + length p - length p) with (length s + 0) by lia.
  rewrite firstn_app_2. simpl. apply app_nil_r.
Qed.

(** Stripping on the left removes a run of whitespace and stops at the
    first other character. *)
Lemma lstrip_spaces (w x : str) :
  forallb isspace w = true -> lstrip (w ++ x) = lstrip x.
Proof.
  induction w as [|c w IH]; simpl; intros H; [reflexivity|].
  apply andb_prop in H as [Hc Hw]. rewrite Hc. auto.
Qed.

Lemma lstrip_stop (c : N) (x : str) :
  isspace c = false -> lstrip (c :: x) = c :: x.
Proof. intros H; simpl; now rewrite H. Qed.

Lemma lstrip_app_stop (x : str) (c : N) (y : str) :
  isspace c = false -> lstrip (x ++ c :: y) = lstrip x ++ c :: y.
Proof.
  intros Hc. induction x as [|a x IH]; simpl.
  - now rewrite Hc.
  - destruct (isspace a); auto.
Qed.

Lemma lstrip_idem (x : str) : lstrip (lstrip x) = lstrip x.
Proof.
  induction x as [|a x IH]; simpl; [reflexivity|].
  destruct (isspace a) eqn:E; [exact IH|]. simpl. now rewrite E.
Qed.

Lemma rstrip_spaces (x w : str) :
  forallb isspace w = true -> rstrip (x ++ w) = rstrip x.
Proof.
  intros H. unfold rstrip. rewrite rev_app_distr, lstrip_spaces; [reflexivity|].
  rewrite forallb_forall in *. intros c Hc. apply H. now apply in_rev.
Qed.

Lemma rstrip_stop (x : str) (c : N) :
  isspace c = false -> rstrip (x ++ [c]) = x ++ [c].
Proof.
  intros H. unfold rstrip. rewrite rev_app_distr. simpl.
  rewrite H. simpl. now rewrite rev_involutive.
Qed.

Lemma rstrip_app_stop (x y : str) (c : N) :
  isspace c = false -> rstrip (x ++ c :: y) = x ++ [c] ++ rstrip y.
Proof.
  intros H. unfold rstrip.
  replace (x ++ c :: y) with ((x ++ [c]) ++ y) by now rewrite <- app_assoc.
  rewrite rev_app_distr, rev_app_distr. simpl.
  rewrite lstrip_app_stop by exact H.
  rewrite rev_app_distr. simpl. now rewrite rev_involutive, <- app_assoc.
Qed.

(** A text that starts and ends with characters other than whitespace is
    what [strip] leaves of it, whatever whitespace surrounds it. *)
Lemma strip_padded (w1 w2 : str) (a b : N) (x : str) :
  forallb isspace w1 = true -> forallb isspace w2 = true ->
  isspace a = false -> isspace b = false ->
  strip (w1 ++ (a :: x ++ [b]) ++ w2) = a :: x ++ [b].
Proof.
  intros H1 H2 Ha Hb. unfold strip.
  rewrite lstrip_spaces by exact H1. simpl. rewrite Ha.
  rewrite app_comm_cons, rstrip_spaces by exact H2.
  change (a :: x ++ [b]) with ((a :: x) ++ [b]).
  now apply rstrip_stop.
Qed.

Lemma strip_bare (a b : N) (x : str) :
  isspace a = false -> isspace b = false ->
  strip (a :: x ++ [b]) = a :: x ++ [b].
Proof.
  intros Ha Hb.
  generalize (@strip_padded [] [] a b x eq_refl eq_refl Ha Hb).
  simpl. now rewrite app_nil_r.
Qed.

Lemma lstrip_head (s : str) (c : N) (r : str) :
  lstrip s = c :: r -> isspace c = false.
Proof.
  induction s as [|a s IH]; simpl; [discriminate|].
  destruct (isspace a) eqn:E; [exact IH|].
  intros H; injection H as <- _. exact E.
Qed.


End TextFacts.

(** ** The decoder *)

Section DecoderFacts.

Lemma skip_ws_length (s : str) : length (skip_ws s) <= length s.
Proof.
  induction s as [|c s IH]; simpl; [lia|].
  destruct (is_ws c); simpl; lia.
Qed.

Lemma scanstring_length (s acc k r : str) :
  scanstring s acc = Some (k, r) -> length r < length s.
Proof.
  remember (length s) as n eqn:Hn. revert s acc Hn.
  induction n as [n IH] using lt_wf_ind. intros s acc Hn H.
  assert (Rec : forall s' acc', length s' < n ->
                  scanstring s' acc' = Some (k, r) -> length r < n).
  { intros s' acc' Hlt Hs. pose proof (IH _ Hlt s' acc' eq_refl Hs). lia. }
  clear IH.
  destruct s as [|c s1]; [discriminate|].
  cbn [scanstring] in H. cbn [length] in Hn.
  destruct (c =? 34)%N; [injection H as _ <-; lia|].
  destruct (c =? 92)%N.
  - destruct s1 as [|e s2]; [discriminate|].
    destruct (e =? 117)%N.
    + destruct s2 as [|a [|b [|c1 [|d r2]]]]; try discriminate.
      destruct (hex4 a b c1 d) as [uni|]; [|discriminate].
      cbn [length] in Hn.
      assert (L2 : length r2 < n) by lia.
      destruct (is_high_surrogate uni); [|exact (Rec _ _ L2 H)].
      destruct r2 as [|bs [|u [|a2 [|b2 [|c2 [|d2 r4]]]]]];
        try exact (Rec _ _ L2 H).
      destruct ((bs =? 92) && (u =? 117))%N; [|exact (Rec _ _ L2 H)].
      destruct (hex4 a2 b2 c2 d2) as [uni2|]; [|discriminate].
      destruct (is_low_surrogate uni2); [|exact (Rec _ _ L2 H)].
      apply Rec in H; [exact H|]. cbn [length] in L2. lia.
    + destruct (backslash e); [|discriminate].
      apply Rec in H; [exact H|]. cbn [length] in Hn. lia.
  - destruct (c <? 32)%N; [discriminate|].
    apply Rec in H; [exact H|]. lia.
Qed.

Lemma span_digits_length (s : str) :
  length (snd (span_digits s)) <= length s.
Proof.
  induction s as [|c s IH]; simpl; [lia|].
  destruct (is_digit c); [|simpl; lia].
  destruct (span_digits s); simpl in *; lia.
Qed.

Lemma match_exp_length (s : str) (e : Z) (r : str) :
  match_exp s = Some (e, r) -> length r <= length s.
Proof.
  unfold match_exp. destruct s as [|c s]; [discriminate|].
  destruct ((c =? 101) || (c =? 69))%N; [|discriminate].
  assert (T : forall x, length x <= length s ->
                match span_digits x with
                | ([], _) => None
                | (d :: ds, rest) => Some (e, rest)
                end = Some (e, r) -> length r <= length (c :: s)).
  { intros x Hx H. pose proof (span_digits_length x) as L.
    destruct (span_digits x) as [[|d ds] rest]; [discriminate|].
    injection H as <-. simpl in *. lia. }
  destruct s as [|sg s'].
  - simpl. discriminate.
  - destruct (sg =? 45)%N; [|destruct (sg =? 43)%N]; intros H.
    all: pose proof (span_digits_length s') as L1;
         pose proof (span_digits_length (sg :: s')) as L2.
    all: match type of H with
         | context [span_digits ?x] =>
             destruct (span_digits x) as [[|d ds] rest]; [discriminate|]
         end.
    all: injection H as _ <-; simpl in *; lia.
Qed.

Lemma match_number_length (s : str) (v : value) (r : str) :
  match_number s = Some (v, r) -> length r < length s.
Proof.
  unfold match_number.
  assert (I : forall x ds r1, match_int x = Some (ds, r1) -> length r1 < length x).
  { intros x ds r1. unfold match_int. destruct x as [|c x]; [discriminate|].
    destruct (c =? 48)%N; [intros H; injection H as _ <-; simpl; lia|].
    destruct (is_digit c); [|discriminate].
    pose proof (span_digits_length x) as L.
    destruct (span_digits x). intros H; injection H as _ <-. simpl in *; lia. }
  assert (F : forall x fs r1, match_frac x = Some (fs, r1) -> length r1 <= length x).
  { intros x fs r1. unfold match_frac. destruct x as [|c x]; [discriminate|].
    destruct (c =? 46)%N; [|discriminate].
    pose proof (span_digits_length x) as L.
    destruct (span_digits x) as [[|d ds] rest]; [discriminate|].
    intros H; injection H as _ <-. simpl in *; lia. }
  set (s1 := match s with
             | c :: r0 => if (c =? 45)%N then (true, r0) else (false, s)
             | [] => (false, s)
             end).
  assert (L1 : length (snd s1) <= length s).
  { unfold s1. destruct s as [|c s0]; [simpl; lia|].
    destruct (c =? 45)%N; simpl; lia. }
  destruct s1 as [neg x]. simpl in L1.
  destruct (match_int x) as [[ds r1]|] eqn:Ei; [|discriminate].
  apply I in Ei.
  destruct (match_frac r1) as [[fs r2]|] eqn:Ef.
  - apply F in Ef.
    destruct (match_exp r2) as [[e r3]|] eqn:Ee.
    + apply match_exp_length in Ee. intros H; injection H as _ <-. lia.
    + intros H; injection H as _ <-. lia.
  - destruct (match_exp r1) as [[e r3]|] eqn:Ee.
    + apply match_exp_length in Ee. intros H; injection H as _ <-. lia.
    + intros H; injection H as _ <-. lia.
Qed.

Ltac skipped H :=
  injection H as _ <-; rewrite length_skipn; cbn [length]; lia.

#[local] Opaque skipn.

Lemma scan_length (digits n : nat) :
  forall d g s v r, scan digits n d g s = Got (v, r) -> length r < length s.
Proof.
  induction n as [|n IH]; intros d g s v r H; [discriminate|].
  destruct g; cbn [scan] in H.
  - destruct s as [|c r0]; [discriminate|]. cbn [length].
    destruct (c =? 34)%N.
    { destruct (scanstring r0 []) as [[k r']|] eqn:E; [|discriminate].
      injection H as _ <-. apply scanstring_length in E. lia. }
    destruct (c =? 123)%N.
    { destruct d as [|d']; [discriminate|].
      pose proof (skip_ws_length r0) as W.
      destruct (skip_ws r0) as [|c1 r1]; [discriminate|]. cbn [length] in W.
      destruct (c1 =? 125)%N; [injection H as _ <-; lia|].
      destruct (c1 =? 34)%N; [|discriminate].
      apply IH in H. lia. }
    destruct (c =? 91)%N.
    { destruct d as [|d']; [discriminate|].
      pose proof (skip_ws_length r0) as W.
      destruct (skip_ws r0) as [|c1 r1]; [discriminate|]. cbn [length] in W.
      destruct (c1 =? 93)%N; [injection H as _ <-; lia|].
      apply IH in H. cbn [length] in H. lia. }
    destruct (startswith (lit "null") (c :: r0)); [skipped H|].
    destruct (startswith (lit "true") (c :: r0)); [skipped H|].
    destruct (startswith (lit "false") (c :: r0)); [skipped H|].
    destruct (match_number (c :: r0)) as [[v' r']|] eqn:E.
    { destruct (too_long digits v' (c :: r0)); [discriminate|].
      injection H as _ <-. apply match_number_length in E.
      cbn [length] in E. lia. }
    destruct (startswith (lit "NaN") (c :: r0)); [skipped H|].
    destruct (startswith (lit "Infinity") (c :: r0)); [skipped H|].
    destruct (startswith (lit "-Infinity") (c :: r0)); [skipped H|].
    discriminate.
  - destruct (scanstring s []) as [[key r1]|] eqn:E; [|discriminate].
    apply scanstring_length in E.
    pose proof (skip_ws_length r1) as W1.
    destruct (skip_ws r1) as [|c r2]; [discriminate|]. cbn [length] in W1.
    destruct (c =? 58)%N; [|discriminate].
    pose proof (skip_ws_length r2) as W2.
    destruct (scan digits n d GValue (skip_ws r2)) as [[v' r3]| |] eqn:Ev;
      try discriminate.
    apply IH in Ev.
    pose proof (skip_ws_length r3) as W3.
    destruct (skip_ws r3) as [|c2 r4]; [discriminate|]. cbn [length] in W3.
    destruct (c2 =? 125)%N; [injection H as _ <-; lia|].
    destruct (c2 =? 44)%N; [|discriminate].
    pose proof (skip_ws_length r4) as W4.
    destruct (skip_ws r4) as [|c3 r5]; [discriminate|]. cbn [length] in W4.
    destruct (c3 =? 34)%N; [|discriminate].
    apply IH in H. lia.
  - destruct (scan digits n d GValue s) as [[v' r1]| |] eqn:Ev; try discriminate.
    apply IH in Ev.
    pose proof (skip_ws_length r1) as W1.
    destruct (skip_ws r1) as [|c r2]; [discriminate|]. cbn [length] in W1.
    destruct (c =? 93)%N; [injection H as _ <-; lia|].
    destruct (c =? 44)%N; [|discriminate].
    pose proof (skip_ws_length r2) as W2.
    apply IH in H. lia.
Qed.


(** A limit that was not met does not show: when the decoder answers
    without meeting a limit, it answers the same with more depth and with
    no limit on the digits. *)
Lemma scan_unlimited (digits n : nat) :
  forall d d' g s,
    d <= d' ->
    (forall x, scan digits n d g s <> Over x) ->
    scan 0 n d' g s = scan digits n d g s.
Proof.
  induction n as [|n IH]; intros d d' g s Hd H; [reflexivity|].
  destruct g; cbn [scan] in *.
  - destruct s as [|c r0]; [reflexivity|].
    destruct (c =? 34)%N; [reflexivity|].
    destruct (c =? 123)%N.
    { destruct d as [|d0]; [now contradiction (H TooDeep)|].
      destruct d' as [|d1]; [lia|].
      destruct (skip_ws r0) as [|c1 r1]; [reflexivity|].
      destruct (c1 =? 125)%N; [reflexivity|].
      destruct (c1 =? 34)%N; [|reflexivity].
      apply IH; [lia|exact H]. }
    destruct (c =? 91)%N.
    { destruct d as [|d0]; [now contradiction (H TooDeep)|].
      destruct d' as [|d1]; [lia|].
      destruct (skip_ws r0) as [|c1 r1]; [reflexivity|].
      destruct (c1 =? 93)%N; [reflexivity|].
      apply IH; [lia|exact H]. }
    destruct (startswith (lit "null") (c :: r0)); [reflexivity|].
    destruct (startswith (lit "true") (c :: r0)); [reflexivity|].
    destruct (startswith (lit "false") (c :: r0)); [reflexivity|].
    destruct (match_number (c :: r0)) as [[v' r']|]; [|reflexivity].
    destruct (too_long digits v' (c :: r0)); [now contradiction (H TooLong)|].
    unfold too_long. destruct v'; reflexivity.
  - destruct (scanstring s []) as [[key r1]|]; [|reflexivity].
    destruct (skip_ws r1) as [|c r2]; [reflexivity|].
    destruct (c =? 58)%N; [|reflexivity].
    assert (Hv : forall x, scan digits n d GValue (skip_ws r2) <> Over x).
    { intros x E. rewrite E in H. now contradiction (H x). }
    rewrite (IH d d' GValue (skip_ws r2) Hd Hv).
    destruct (scan digits n d GValue (skip_ws r2)) as [[v' r3]| |]; try reflexivity.
    destruct (skip_ws r3) as [|c2 r4]; [reflexivity|].
    destruct (c2 =? 125)%N; [reflexivity|].
    destruct (c2 =? 44)%N; [|reflexivity].
    destruct (skip_ws r4) as [|c3 r5]; [reflexivity|].
    destruct (c3 =? 34)%N; [|reflexivity].
    apply IH; [exact Hd|exact H].
  - assert (Hv : forall x, scan digits n d GValue s <> Over x).
    { intros x E. rewrite E in H. now contradiction (H x). }
    rewrite (IH d d' GValue s Hd Hv).
    destruct (scan digits n d GValue s) as [[v' r1]| |]; try reflexivity.
    destruct (skip_ws r1) as [|c r2]; [reflexivity|].
    destruct (c =? 93)%N; [reflexivity|].
    destruct (c =? 44)%N; [|reflexivity].
    apply IH; [exact Hd|exact H].
Qed.

(** Depth beyond the length of the text does not show: the decoder cannot
    enter more arrays and objects than the text has characters. *)
Lemma scan_deep (digits n : nat) :
  forall d d' g s,
    length s <= d -> length s <= d' ->
    scan digits n d g s = scan digits n d' g s.
Proof.
  induction n as [|n IH]; intros d d' g s Hd Hd'; [reflexivity|].
  destruct g; cbn [scan].
  - destruct s as [|c r0]; [reflexivity|]. cbn [length] in Hd, Hd'.
    destruct (c =? 34)%N; [reflexivity|].
    destruct (c =? 123)%N.
    { destruct d as [|d0]; [lia|]. destruct d' as [|d1]; [lia|].
      pose proof (skip_ws_length r0) as W.
      destruct (skip_ws r0) as [|c1 r1]; [reflexivity|]. cbn [length] in W.
      destruct (c1 =? 125)%N; [reflexivity|].
      destruct (c1 =? 34)%N; [|reflexivity].
      apply IH; lia. }
    destruct (c =? 91)%N; [|reflexivity].
    destruct d as [|d0]; [lia|]. destruct d' as [|d1]; [lia|].
    pose proof (skip_ws_length r0) as W.
    destruct (skip_ws r0) as [|c1 r1]; [reflexivity|]. cbn [length] in W.
    destruct (c1 =? 93)%N; [reflexivity|].
    apply IH; cbn [length]; lia.
  - destruct (scanstring s []) as [[key r1]|] eqn:E; [|reflexivity].
    apply scanstring_length in E.
    pose proof (skip_ws_length r1) as W1.
    destruct (skip_ws r1) as [|c r2]; [reflexivity|]. cbn [length] in W1.
    destruct (c =? 58)%N; [|reflexivity].
    pose proof (skip_ws_length r2) as W2.
    rewrite (IH d d' GValue (skip_ws r2)) by lia.
    destruct (scan digits n d' GValue (skip_ws r2)) as [[v' r3]| |] eqn:Ev;
      try reflexivity.
    apply scan_length in Ev.
    pose proof (skip_ws_length r3) as W3.
    destruct (skip_ws r3) as [|c2 r4]; [reflexivity|]. cbn [length] in W3.
    destruct (c2 =? 125)%N; [reflexivity|].
    destruct (c2 =? 44)%N; [|reflexivity].
    pose proof (skip_ws_length r4) as W4.
    destruct (skip_ws r4) as [|c3 r5]; [reflexivity|]. cbn [length] in W4.
    destruct (c3 =? 34)%N; [|reflexivity].
    apply IH; lia.
  - rewrite (IH d d' GValue s) by lia.
    destruct (scan digits n d' GValue s) as [[v' r1]| |] eqn:Ev; try reflexivity.
    apply scan_length in Ev.
    pose proof (skip_ws_length r1) as W1.
    destruct (skip_ws r1) as [|c r2]; [reflexivity|]. cbn [length] in W1.
    destruct (c =? 93)%N; [reflexivity|].
    destruct (c =? 44)%N; [|reflexivity].
    pose proof (skip_ws_length r2) as W2.
    apply IH; lia.
Qed.

#[local] Transparent skipn.

(** What the decoder answers under limits that it does not meet is what the
    text denotes. *)
Lemma scan_denotes (L : limits) (n : nat) (s : str) :
  (forall x, scan (max_digits L) n (max_depth L) GValue (skip_ws s) <> Over x) ->
  scan 0 n (length s) GValue (skip_ws s)
  = scan (max_digits L) n (max_depth L) GValue (skip_ws s).
Proof.
  intros H. pose proof (skip_ws_length s) as W.
  destruct (Nat.le_gt_cases (max_depth L) (length s)) as [Hle|Hgt].
  - now apply scan_unlimited.
  - rewrite (@scan_deep 0 n (length s) (max_depth L)) by lia.
    now apply scan_unlimited.
Qed.

Lemma json_loads_denotes (L : limits) (s : str) :
  (forall v, json_loads L s = Got v -> loads s = Some v) /\
  (json_loads L s = Bad -> loads s = None).
Proof.
  unfold loads, json_loads. cbn [max_depth max_digits].
  destruct (startswith [65279%N] s); [split; [discriminate|reflexivity]|].
  destruct (scan (max_digits L) (S (2 * length s)) (max_depth L) GValue (skip_ws s))
    as [[v r]| |x] eqn:E.
  - rewrite (@scan_denotes L (S (2 * length s)) s) by (intros x; now rewrite E). rewrite E.
    destruct (skip_ws r); split; try discriminate; try reflexivity.
    intros v0 H. now injection H as <-.
  - rewrite (@scan_denotes L (S (2 * length s)) s) by (intros x; now rewrite E). rewrite E.
    split; [discriminate|reflexivity].
  - split; discriminate.
Qed.

Lemma json_loads_got (L : limits) (s : str) (v : value) :
  json_loads L s = Got v -> loads s = Some v.
Proof. apply json_loads_denotes. Qed.


End DecoderFacts.

(** ** The serializer and the decoder *)

Section Serializer.

#[local] Ltac Zify.zify_post_hook ::= Z.to_euclidean_division_equations.








End Serializer.


(** ** The response parser *)

Section ParserFacts.

Variables (args : Args) (env : Env) (tr : list event).




Lemma clean_bare (o1 o2 : str) (a b : N) (x : str) :
  forallb isspace o1 = true -> forallb isspace o2 = true ->
  isspace a = false -> isspace b = false ->
  a <> 96%N -> b <> 96%N ->
  clean (o1 ++ (a :: x ++ [b]) ++ o2) = a :: x ++ [b].
Proof.
  intros H1 H2 Ha Hb Na Nb. unfold clean.
  rewrite strip_padded by assumption.
  apply N.eqb_neq in Na, Nb. rewrite N.eqb_sym in Na, Nb.
  replace (startswith fence_open (a :: x ++ [b])) with false.
  2:{ change (startswith fence_open (a :: x ++ [b]))
        with ((96 =? a)%N && startswith (skipn 1 fence_open) (x ++ [b])).
      now rewrite Na. }
  replace (endswith fence_close (a :: x ++ [b])) with false.
  2:{ unfold endswith. change (a :: x ++ [b]) with ((a :: x) ++ [b]).
      rewrite rev_app_distr.
      change (startswith (rev fence_close) (rev [b] ++ rev (a :: x)))
        with ((96 =? b)%N && startswith [96; 96]%N (rev (a :: x))).
      now rewrite Nb. }
  now apply strip_bare.
Qed.


(** A trailing fence is cut off whether or not a leading marker was. *)
Lemma clean_trailing_fence (x w : str) :
  forallb isspace w = true ->
  startswith fence_open (lstrip x ++ fence_close) = false ->
  clean (x ++ fence_close ++ w) = strip x.
Proof.
  intros Hw H. unfold clean.
  assert (E : strip (x ++ fence_close ++ w) = lstrip x ++ fence_close).
  { unfold strip. change (fence_close ++ w) with (96%N :: [96; 96]%N ++ w).
    rewrite lstrip_app_stop by reflexivity.
    change (lstrip x ++ 96%N :: [96; 96]%N ++ w)
      with (lstrip x ++ ([96; 96]%N ++ [96%N]) ++ w).
    rewrite !app_assoc, rstrip_spaces by exact Hw.
    rewrite rstrip_stop by reflexivity.
    now rewrite <- app_assoc. }
  rewrite E, H, endswith_app.
  change 3 with (length fence_close). rewrite slice_to_minus_app.
  unfold strip. now rewrite lstrip_idem.
Qed.





End ParserFacts.








(** ** The prompt builder *)

Lemma contains_occurs (k s : str) : contains k s = true <-> occurs k s.
Proof.
  split.
  - induction s as [|c s IH]; simpl; intros H.
    + rewrite orb_false_r in H. apply startswith_spec in H as [r E].
      exists [], r. exact E.
    + apply orb_prop in H as [H|H].
      * apply startswith_spec in H as [r E]. exists [], r. exact E.
      * destruct (IH H) as (pre & post & ->). now exists (c :: pre), post.
  - intros (pre & post & ->). induction pre as [|c pre IH].
    + assert (H : startswith k (k ++ post) = true) by apply startswith_app.
      simpl app. destruct (k ++ post); simpl; now rewrite H.
    + simpl. now rewrite IH, orb_true_r.
Qed.

(** An occurrence in two texts put together is in the first, in the
    second, or starts in the first and goes on in the second. *)
Lemma occurs_app (k x y : str) :
  occurs k (x ++ y) -> occurs k x \/ occurs k y \/ overlaps k x = true.
Proof.
  intros (pre & post & E).
  apply app_eq_app in E as [l [[E1 E2]|[E1 E2]]].
  - symmetry in E2. apply app_eq_app in E2 as [l' [[E3 E4]|[E3 E4]]].
    + left. exists pre, l'. rewrite E1, E3. reflexivity.
    + destruct l as [|a l]; [right; left; exists [], post; cbn [app] in *; congruence|].
      destruct l' as [|b l'].
      * left. exists pre, []. rewrite app_nil_r in *. congruence.
      * right; right. unfold overlaps. apply existsb_exists.
        exists (length (a :: l)). split.
        -- apply in_seq. rewrite E3, length_app. cbn [length]. lia.
        -- rewrite E3, firstn_app, Nat.sub_diag, firstn_all, firstn_O, app_nil_r.
           rewrite E1. apply endswith_app.
  - right; left. exists l, post. exact E2.
Qed.

Lemma occurs_in_app (k x y : str) : occurs k x \/ occurs k y -> occurs k (x ++ y).
Proof.
  intros [(pre & post & ->)|(pre & post & ->)].
  - exists pre, (post ++ y). now rewrite <- !app_assoc.
  - exists (x ++ pre), post. now rewrite <- !app_assoc.
Qed.

Lemma build_prompt_parts (status diff : str) (args : Args) (config : Config) :
  build_prompt status diff args config
  = prompt_head (branch args) ++ prompt_extras args config ++ prompt_context status diff.
Proof.
  unfold build_prompt, prompt_head, prompt_extras, prompt_context.
  destruct (branch args), (nonempty (extra_info args)),
    (nonempty (config_extra_info config));
    cbn [orb]; cbv zeta; rewrite <- ?app_assoc; reflexivity.
Qed.

(** C5 (counterexample).  With no branch wanted, extra information that
    holds the text of the branch-name block puts the block in the
    prompt. *)
Lemma branch_block_from_extra_info :
  ~ inclusion_law (lit " M main.py") (lit "+x") pasted_args sample_config.
Proof.
  intros [[H _] _].
  assert (E : branch pasted_args = true); [|discriminate E].
  apply H, contains_occurs. vm_compute. reflexivity.
Qed.

(** C5 (amended).  The builder's own text holds the branch-name block
    exactly when a branch is wanted, and the block occurs in the prompt
    exactly when a branch is wanted or the block occurs in the part that
    follows the builder's text, made of the caller's extra information,
    status and diff.  The extra-information heading occurs in the prompt
    exactly when one of the two extra texts is not empty or the heading
    occurs in the context section, made of the status and the diff.  When
    both extra texts are not empty the heading is followed by the
    configuration's text and then by the run's text, each on a line of its
    own, right after the builder's text. *)
Theorem prompt_inclusion
  (status diff : str) (args : Args) (config : Config) :
  let prompt := build_prompt status diff args config in
  contains branch_spec (prompt_head (branch args)) = branch args /\
  (occurs branch_spec prompt <->
   branch args = true \/
   occurs branch_spec (prompt_extras args config ++ prompt_context status diff)) /\
  (occurs extra_heading prompt <->
   nonempty (extra_info args) || nonempty (config_extra_info config) = true \/
   occurs extra_heading (prompt_context status diff)) /\
  (nonempty (config_extra_info config) = true ->
   nonempty (extra_info args) = true ->
   prompt
   = prompt_head (branch args) ++
     (extra_heading ++ text_of (config_extra_info config) ++ nl ++
      text_of (extra_info args) ++ nl) ++
     prompt_context status diff).
Proof.
  intros prompt. unfold prompt. rewrite build_prompt_parts.
  split; [destruct (branch args); vm_compute; reflexivity|].
  split; [|split].
  - split.
    + intros H. destruct (branch args) eqn:B; [now left|]. right.
      apply occurs_app in H as [H|[H|H]]; [| exact H |].
      * apply contains_occurs in H. vm_compute in H. discriminate H.
      * vm_compute in H. discriminate H.
    + intros [B|H].
      * rewrite B. apply occurs_in_app. left.
        apply contains_occurs. vm_compute. reflexivity.
      * apply occurs_in_app. now right.
  - split.
    + intros H.
      destruct (nonempty (extra_info args) || nonempty (config_extra_info config))
        eqn:E; [now left|]. right.
      unfold prompt_extras in H. rewrite E in H. cbn [app] in H.
      apply occurs_app in H as [H|[H|H]]; [| exact H |].
      * apply contains_occurs in H.
        destruct (branch args); vm_compute in H; discriminate H.
      * destruct (branch args); vm_compute in H; discriminate H.
    + intros [E|H].
      * apply occurs_in_app. right. apply occurs_in_app. left.
        unfold prompt_extras. rewrite E.
        exists [], ((if nonempty (config_extra_info config)
                     then text_of (config_extra_info config) ++ nl else []) ++
                    (if nonempty (extra_info args)
                     then text_of (extra_info args) ++ nl else [])).
        reflexivity.
      * apply occurs_in_app. right. apply occurs_in_app. now right.
  - intros Hc Ha. unfold prompt_extras. rewrite Hc, Ha. cbn [orb].
    now rewrite <- !app_assoc.
Qed.

Lemma prompt_inclusion_witness :
  let prompt := build_prompt (lit " M main.py") (lit "+x") full_args full_config in
  let plain := build_prompt (lit " M main.py") (lit "+x") plain_args sample_config in
  let pasted := build_prompt (lit " M main.py") (lit "+x") pasted_args sample_config in
  occurs branch_spec prompt /\
  occurs extra_heading prompt /\
  prompt
  = prompt_head true ++
    (extra_heading ++ lit "Write in English." ++ nl ++ lit "Ticket 42." ++ nl) ++
    prompt_context (lit " M main.py") (lit "+x") /\
  ~ occurs branch_spec plain /\
  ~ occurs extra_heading plain /\
  occurs branch_spec pasted.
Proof.
  intros prompt plain pasted.
  destruct (prompt_inclusion (lit " M main.py") (lit "+x") full_args full_config)
    as (_ & A & B & C).
  destruct (prompt_inclusion (lit " M main.py") (lit "+x") plain_args sample_config)
    as (_ & D & E & _).
  destruct (prompt_inclusion (lit " M main.py") (lit "+x") pasted_args sample_config)
    as (_ & F & _ & _).
  split; [apply A; now left|].
  split; [apply B; now left|].
  split; [exact (C eq_refl eq_refl)|].
  split.
  { intros H. apply D in H as [H|H]; [discriminate H|].
    apply contains_occurs in H. vm_compute in H. discriminate H. }
  split.
  { intros H. apply E in H as [H|H]; [discriminate H|].
    apply contains_occurs in H. vm_compute in H. discriminate H. }
  apply F. right. apply contains_occurs. vm_compute. reflexivity.
Defined.

(** C8.  The prompt is a function of its inputs, and of no more than the
    status, the diff, the branch option and the two extra texts: two
    invocations that agree on these produce the same prompt, whatever the
    other options and settings are.  The builder takes no environment and
    leaves no trace. *)
Theorem build_prompt_deterministic
  (status diff : str) (args args' : Args) (config config' : Config) :
  branch args = branch args' ->
  extra_info args = extra_info args' ->
  config_extra_info config = config_extra_info config' ->
  build_prompt status diff args config = build_prompt status diff args' config'.
Proof.
  intros Hb He Hc. unfold build_prompt. now rewrite Hb, He, Hc.
Qed.

Lemma build_prompt_deterministic_witness :
  build_prompt (lit " M main.py") (lit "+x") plain_args sample_config
  = build_prompt (lit " M main.py") (lit "+x") other_args other_config.
Proof.
  exact (@build_prompt_deterministic (lit " M main.py") (lit "+x")
           plain_args other_args sample_config other_config
           eq_refl eq_refl eq_refl).
Defined.

(** ** The repository inspector *)

Lemma get_git_status_run (env : Env) (tr : list event) :
  get_git_status env tr
  = match subprocess env tr status_command with
    | Some out =>
        if undecodable env tr status_command
        then (Raises UnicodeDecodeError, tr ++ [EvGarbled status_command])
        else (Returns (Some out), tr ++ [EvRun status_command (Some out)])
    | None =>
        (Returns None,
         tr ++ [EvRun status_command None;
                EvPrint [Lit (lit "Not in a git repository or git status failed.")]])
    end.
Proof.
  unfold get_git_status, bind, subprocess_capture.
  destruct (subprocess env tr status_command).
  - now destruct (undecodable env tr status_command).
  - unfold print, ret. now rewrite <- app_assoc.
Qed.

Lemma get_git_diff_run (config : Config) (env : Env) (tr : list event) :
  get_git_diff config env tr
  = match subprocess env tr (diff_command config) with
    | Some out =>
        if undecodable env tr (diff_command config)
        then (Raises UnicodeDecodeError, tr ++ [EvGarbled (diff_command config)])
        else (Returns out, tr ++ [EvRun (diff_command config) (Some out)])
    | None => (Returns [], tr ++ [EvRun (diff_command config) None])
    end.
Proof.
  unfold get_git_diff, bind, subprocess_capture.
  destruct (subprocess env tr (diff_command config)); [|reflexivity].
  now destruct (undecodable env tr (diff_command config)).
Qed.

Lemma main_without_repository (args : Args) (config : Config) (env : Env) (tr : list event) :
  subprocess env tr status_command = None ->
  main args config env tr
  = (Returns tt,
     tr ++ (if nonempty (openai_api_key config)
            then [EvRun status_command None;
                  EvPrint [Lit (lit "Not in a git repository or git status failed.")]]
            else [EvPrint [Lit (lit "API key not found. Run --init first.")]])).
Proof.
  intros H. unfold main.
  destruct (nonempty (openai_api_key config)); [|reflexivity].
  unfold bind at 1. now rewrite get_git_status_run, H.
Qed.

(** C7 (counterexample).  A staged diff that cannot be decoded, as a
    change to a text file in another encoding than the locale's gives,
    makes the diff query fail: the [UnicodeDecodeError] is not the error
    that the query catches. *)
Lemma undecodable_diff_escapes :
  ~ diff_never_fails_law sample_config garbling_env [].
Proof.
  intros [diff H]. vm_compute in H. discriminate H.
Qed.

(** C7 (amended).  When the diff command ends in [CalledProcessError] the
    diff query returns the empty text, and when the command exits with
    status zero it returns its output; but output that cannot be decoded
    makes the query raise [UnicodeDecodeError].  A failure of the status
    query is answered with [None], which no status text is, and ends the
    run at once. *)
Theorem diff_failure_is_empty_status_failure_is_fatal
  (config : Config) (env : Env) (tr : list event) :
  (subprocess env tr (diff_command config) = None ->
   get_git_diff config env tr
   = (Returns [], tr ++ [EvRun (diff_command config) None])) /\
  (forall out,
     subprocess env tr (diff_command config) = Some out ->
     undecodable env tr (diff_command config) = false ->
     get_git_diff config env tr
     = (Returns out, tr ++ [EvRun (diff_command config) (Some out)])) /\
  (forall out,
     subprocess env tr (diff_command config) = Some out ->
     undecodable env tr (diff_command config) = true ->
     get_git_diff config env tr
     = (Raises UnicodeDecodeError, tr ++ [EvGarbled (diff_command config)])) /\
  (subprocess env tr status_command = None ->
   fst (get_git_status env tr) = Returns None /\
   forall args, nonempty (openai_api_key config) = true ->
     main args config env tr
     = (Returns tt,
        tr ++ [EvRun status_command None;
               EvPrint [Lit (lit "Not in a git repository or git status failed.")]])).
Proof.
  split; [|split; [|split]].
  - intros H. now rewrite get_git_diff_run, H.
  - intros out H U. now rewrite get_git_diff_run, H, U.
  - intros out H U. now rewrite get_git_diff_run, H, U.
  - intros H. split.
    + now rewrite get_git_status_run, H.
    + intros args Hk. rewrite main_without_repository by exact H. now rewrite Hk.
Qed.

Lemma diff_failure_is_empty_status_failure_is_fatal_witness :
  get_git_diff other_config silent_env []
  = (Returns [], [EvRun (diff_command other_config) None]) /\
  get_git_diff other_config (replying_env []) []
  = (Returns [], [EvRun (diff_command other_config) (Some [])]) /\
  get_git_diff other_config garbling_env []
  = (Raises UnicodeDecodeError, [EvGarbled (diff_command other_config)]) /\
  fst (get_git_status silent_env []) = Returns None /\
  main plain_args sample_config silent_env []
  = (Returns tt,
     [EvRun status_command None;
      EvPrint [Lit (lit "Not in a git repository or git status failed.")]]).
Proof.
  destruct (diff_failure_is_empty_status_failure_is_fatal other_config silent_env [])
    as (A & _).
  destruct (diff_failure_is_empty_status_failure_is_fatal other_config (replying_env []) [])
    as (_ & B & _).
  destruct (diff_failure_is_empty_status_failure_is_fatal other_config garbling_env [])
    as (_ & _ & C & _).
  destruct (diff_failure_is_empty_status_failure_is_fatal sample_config silent_env [])
    as (_ & _ & _ & D).
  split; [exact (A eq_refl)|].
  split; [exact (B [] eq_refl eq_refl)|].
  split; [exact (C [] eq_refl eq_refl)|].
  destruct (D eq_refl) as [D1 D2].
  split; [exact D1|].
  exact (D2 plain_args eq_refl).
Defined.

(** C9.  When the status query fails the run ends there: it has issued no
    command but the status query, and it has written no prompt to a file,
    counted no tokens, asked nothing of the user and called no backend. *)
Theorem no_repository_halts_before_prompt
  (args : Args) (config : Config) (env : Env) (tr : list event) :
  subprocess env tr status_command = None ->
  exists new,
    main args config env tr = (Returns tt, tr ++ new) /\
    forallb print_or_run new = true /\
    forall argv ok, In (argv, ok) (runs new) -> argv = status_command /\ ok = false.
Proof.
  intros H. rewrite main_without_repository by exact H.
  eexists. split; [reflexivity|].
  destruct (nonempty (openai_api_key config)); split; try reflexivity;
    intros argv ok Hin; simpl in Hin; intuition congruence.
Qed.

Lemma no_repository_halts_before_prompt_witness :
  exists new,
    main branch_push_args sample_config silent_env [] = (Returns tt, [] ++ new) /\
    forallb print_or_run new = true /\
    forall argv ok, In (argv, ok) (runs new) -> argv = status_command /\ ok = false.
Proof.
  exact (@no_repository_halts_before_prompt
           branch_push_args sample_config silent_env [] eq_refl).
Defined.

(** ** The command executor *)


Lemma argv_commit (m : str) :
  argv_strings (commit_command (JString m))
  = match arg_error m with
    | Some e => inl e
    | None => inr (commit_argv m)
    end.
Proof.
  unfold commit_command. cbn [argv_strings].
  repeat match goal with
         | |- context [arg_error (lit ?x)] =>
             change (arg_error (lit x)) with (@None exn)
         end;
  destruct (arg_error m); reflexivity.
Qed.

Lemma argv_checkout (b : str) :
  argv_strings (checkout_command (JString b))
  = match arg_error b with
    | Some e => inl e
    | None => inr (checkout_argv b)
    end.
Proof.
  unfold checkout_command. cbn [argv_strings].
  repeat match goal with
         | |- context [arg_error (lit ?x)] =>
             change (arg_error (lit x)) with (@None exn)
         end;
  destruct (arg_error b); reflexivity.
Qed.


Lemma subprocess_some (env : Env) (tr : list event) (argv : list str) (out : str) :
  subprocess env tr argv = Some out -> forallb passable argv = true.
Proof.
  unfold subprocess. destruct (forallb passable argv); [reflexivity|discriminate].
Qed.

Ltac prefix_of_plan :=
  match goal with
  | |- exists k, ?l = firstn k _ => exists (length l); reflexivity
  end.








(** ** The run orchestrator *)

(** C3 (counterexample).  Outside a repository the status query fails, the
    run stops, and the exit status is zero. *)
Lemma not_a_repository_exits_zero :
  ~ exit_law plain_args sample_config silent_env.
Proof.
  intros [_ H]. apply H; [|reflexivity].
  right. reflexivity.
Qed.

Ltac tidy :=
  rewrite <- ?app_assoc in *; cbn [app fst snd] in *.

Ltac literal_args :=
  repeat match goal with
         | |- context [arg_error (lit ?x)] =>
             change (arg_error (lit x)) with (@None exn)
         end.

Ltac settle :=
  tidy;
  unfold push_command, push_target;
  cbn [argv_strings commit_command checkout_command truthy negb];
  literal_args;
  tidy.

Ltac crunch env :=
  repeat (settle;
          match goal with
          | |- context [subprocess env ?t ?a] => destruct (subprocess env t a) eqn:?
          | |- context [match arg_error ?s with _ => _ end] =>
              destruct (arg_error s) eqn:?
          | |- context [if push ?a then _ else _] => destruct (push a) eqn:?
          | |- context [(?z =? 0)%Z] => destruct (z =? 0)%Z eqn:?
          | |- context [float_is_zero ?m ?e] => destruct (float_is_zero m e) eqn:?
          end);
  settle.

Ltac quiet_trace :=
  let L := fresh "L" in
  intros L; cbn [existsb fatal_event orb]; vm_compute; reflexivity.

(** What the executor does with any two values: it prints and runs
    commands, the commands are first steps of the plan that the values
    make, in their order, each but the last succeeded; and when an
    exception escapes it, no command has failed, and either no commit
    succeeded or the branch name counts as true and no branch was
    created. *)
Lemma executor_course (cm bn : value) (args : Args) (env : Env) (tr : list event) :
  let r := execute_git_commands cm bn args env tr in
  exists new,
    snd r = tr ++ new /\
    forallb print_or_run new = true /\
    existsb announces_branch new = false /\
    (runs new <> [] ->
     exists m, cm = JString m /\
       (exists k, List.map fst (runs new) = firstn k (planned m (as_branch bn) args)) /\
       forallb snd (removelast (runs new)) = true) /\
    (forall e, fst r = Raises e ->
       (forall L, existsb (fatal_event L) new = false) /\
       (succeeded (lit "commit") new = false \/
        truthy bn = true /\ succeeded (lit "checkout") new = false)).
Proof.
  cbv zeta.
  unfold execute_git_commands, subprocess_run, bind, raise, ret, print, planned,
    commit_argv, checkout_argv, push_argv, push_branch.
  destruct cm as [|? |? |? ? | |? |mv|? |?];
    [| | | | | |destruct bn as [|[] |? |? ? | |? |[|? ?]|[|? ?]|[|? ?]]| |];
    crunch env;
    (eexists; split; [tidy; first [reflexivity | symmetry; apply app_nil_r]|]);
    cbn [forallb print_or_run existsb announces_branch runs andb orb List.map fst snd
         removelast as_branch nonempty text_of app];
    (split; [reflexivity|]);
    (split; [reflexivity|]);
    (split;
     [let H := fresh in intros H;
      first [ now contradiction H
            | eexists; split; [reflexivity|];
              split; [prefix_of_plan | reflexivity] ]
     |]);
    (let e := fresh "e" in let H := fresh in
     intros e H;
     first [ discriminate H
           | split; [quiet_trace|];
             first [ left; vm_compute; reflexivity
                   | right; split; vm_compute; reflexivity ] ]).
Qed.

Section Stepping.

Context {A B : Type}.
Variables (env : Env) (tr : list event).

Lemma bind_eq (m : IO A) (k : A -> IO B) :
  bind m k env tr
  = match m env tr with
    | (Returns a, tr') => k a env tr'
    | (Raises e, tr') => (Raises e, tr')
    end.
Proof. reflexivity. Qed.

Lemma ret_eq (a : A) : ret a env tr = (Returns a, tr).
Proof. reflexivity. Qed.

Lemma print_eq (line : list piece) :
  print line env tr = (Returns tt, tr ++ [EvPrint line]).
Proof. reflexivity. Qed.

Lemma input_eq (prompt : str) :
  input prompt env tr
  = (Returns (stdin env tr prompt), tr ++ [EvInput prompt (stdin env tr prompt)]).
Proof. reflexivity. Qed.

Lemma write_file_eq (path content : str) :
  write_file path content env tr = (Returns tt, tr ++ [EvWrite path content]).
Proof. reflexivity. Qed.

Lemma encode_count_eq (name text : str) :
  encode_count name text env tr
  = if estimator_fault env tr name text
    then (Raises EstimatorError, tr ++ [EvEncodeFault name text])
    else (Returns (encoding env tr name text),
          tr ++ [EvEncode name text (encoding env tr name text)]).
Proof. reflexivity. Qed.

Lemma create_completion_eq (client : Client) (request : Request) :
  create_completion client request env tr
  = (Returns (completions env tr client request),
     tr ++ [EvChat client request (completions env tr client request)]).
Proof. reflexivity. Qed.

End Stepping.

Lemma runs_app (a b : list event) : runs (a ++ b) = runs a ++ runs b.
Proof.
  induction a as [|ev a IH]; [reflexivity|].
  destruct ev; simpl; now rewrite ?IH.
Qed.

Lemma questions_app (a b : list event) : questions (a ++ b) = questions a ++ questions b.
Proof.
  induction a as [|[] a IH]; cbn [app questions]; now rewrite ?IH.
Qed.

Lemma chats_app (a b : list event) : chats (a ++ b) = chats a ++ chats b.
Proof.
  induction a as [|[] a IH]; cbn [app chats]; now rewrite ?IH.
Qed.

Lemma writes_app (a b : list event) : writes (a ++ b) = writes a ++ writes b.
Proof.
  induction a as [|[] a IH]; cbn [app writes]; now rewrite ?IH.
Qed.

Lemma estimates_app (a b : list event) : estimates (a ++ b) = estimates a ++ estimates b.
Proof.
  induction a as [|[] a IH]; cbn [app estimates]; now rewrite ?IH.
Qed.

Lemma succeeded_app (v : str) (a b : list event) :
  succeeded v (a ++ b) = succeeded v a || succeeded v b.
Proof. unfold succeeded. now rewrite runs_app, existsb_app. Qed.

Lemma local_projections (new : list event) :
  forallb local_event new = true ->
  chats new = [] /\ writes new = [] /\ estimates new = [].
Proof.
  induction new as [|[] new IH]; cbn [forallb local_event andb chats writes estimates];
    intros H; try discriminate H; auto.
Qed.

(** Prints and commands ask nothing. *)
Lemma print_or_run_quiet (new : list event) :
  forallb print_or_run new = true ->
  forallb local_event new = true /\ questions new = [] /\
  existsb declined new = false.
Proof.
  induction new as [|[] new IH];
    cbn [forallb print_or_run local_event andb questions existsb declined orb];
    intros H; try discriminate H; auto.
Qed.

Lemma declined_questions (tr : list event) :
  existsb declined tr = existsb (fun p => negb (is_yes (snd p))) (questions tr).
Proof.
  induction tr as [|[] tr IH]; cbn [existsb declined questions orb snd];
    now rewrite ?IH.
Qed.

Lemma announced_quiet (cm bn : value) :
  forallb local_event (announced cm bn) = true /\
  questions (announced cm bn) = [] /\
  runs (announced cm bn) = [] /\
  existsb declined (announced cm bn) = false /\
  (forall L, existsb (fatal_event L) (announced cm bn) = false) /\
  existsb announces_branch (announced cm bn) = truthy bn.
Proof.
  unfold announced. destruct (truthy bn); repeat split.
Qed.

(** What follows a plan: terminal and commands only, at most the one
    question, commands only behind the confirmation and only the first
    steps of the plan; and when an exception escapes, no confirmation was
    declined, no command has failed, and either no commit succeeded or a
    branch was announced and none was created. *)
Lemma plan_course (cm bn : value) (args : Args) (env : Env) (tr0 : list event) :
  let r := handle_plan cm bn args env tr0 in
  exists new,
    snd r = tr0 ++ new /\
    forallb local_event new = true /\
    (cm = JNull -> new = [] /\ fst r = Returns tt) /\
    (questions new = [] \/
     yes args = false /\
     exists a, questions new = [(q_execute, a)] /\
       (is_yes a = false -> runs new = [] /\ fst r = Returns tt)) /\
    (runs new <> [] ->
     (yes args = true \/
      exists a, questions new = [(q_execute, a)] /\ is_yes a = true) /\
     exists m, cm = JString m /\
       (exists k, List.map fst (runs new) = firstn k (planned m (as_branch bn) args)) /\
       forallb snd (removelast (runs new)) = true) /\
    (forall e, fst r = Raises e ->
       existsb declined new = false /\
       (forall L, existsb (fatal_event L) new = false) /\
       (succeeded (lit "commit") new = false \/
        existsb announces_branch new = true /\
        succeeded (lit "checkout") new = false)).
Proof.
  cbv zeta.
  destruct (announced_quiet cm bn) as (Al & Aq & Ar & Ad & Af & Aa).
  (* the executor, started after the announcement and the gate *)
  assert (Run : forall gate,
            (gate = [] /\ yes args = true) \/
            (yes args = false /\
             exists a, gate = [EvInput q_execute a] /\ is_yes a = true) ->
            let r := (execute_git_commands cm bn args ;; ret tt) env
                       (tr0 ++ announced cm bn ++ gate) in
            exists new,
              snd r = tr0 ++ new /\
              forallb local_event new = true /\
              (questions new = [] \/
               yes args = false /\
               exists a, questions new = [(q_execute, a)] /\
                 (is_yes a = false -> runs new = [] /\ fst r = Returns tt)) /\
              (runs new <> [] ->
               (yes args = true \/
                exists a, questions new = [(q_execute, a)] /\ is_yes a = true) /\
               exists m, cm = JString m /\
                 (exists k, List.map fst (runs new)
                            = firstn k (planned m (as_branch bn) args)) /\
                 forallb snd (removelast (runs new)) = true) /\
              (forall e, fst r = Raises e ->
                 existsb declined new = false /\
                 (forall L, existsb (fatal_event L) new = false) /\
                 (succeeded (lit "commit") new = false \/
                  existsb announces_branch new = true /\
                  succeeded (lit "checkout") new = false))).
  { intros gate Gq r. unfold r. clear r.
    assert (G : forallb local_event gate = true /\ runs gate = [] /\
                existsb declined gate = false /\
                (forall L, existsb (fatal_event L) gate = false) /\
                existsb announces_branch gate = false).
    { destruct Gq as [[-> _]|[_ (a & -> & Ya)]]; [repeat split|].
      cbn [existsb declined orb]. rewrite Ya. repeat split. }
    destruct G as (Gl & Gr & Gd & Gf & Ga).
    rewrite bind_eq.
    destruct (executor_course cm bn args env (tr0 ++ announced cm bn ++ gate))
      as (nw & E & P & A & R & X).
    cbv zeta in E, R, X.
    destruct (print_or_run_quiet _ P) as (Pl & Pq & Pd).
    destruct (execute_git_commands cm bn args env (tr0 ++ announced cm bn ++ gate))
      as [o t]. cbn [fst snd] in *. subst t.
    exists (announced cm bn ++ gate ++ nw).
    assert (Q : questions (announced cm bn ++ gate ++ nw) = questions gate).
    { now rewrite !questions_app, Aq, Pq, app_nil_r. }
    assert (Rn : runs (announced cm bn ++ gate ++ nw) = runs nw).
    { now rewrite !runs_app, Ar, Gr. }
    split; [destruct o; cbn [snd]; now rewrite <- !app_assoc|].
    split; [rewrite !forallb_app, Al, Gl, Pl; reflexivity|].
    split.
    { rewrite Q. destruct Gq as [[-> _]|[Y (a & -> & Ya)]]; [now left|].
      right. split; [exact Y|]. exists a. split; [reflexivity|].
      intros F. congruence. }
    split.
    { rewrite Rn, Q. intros H. split; [|now apply R].
      destruct Gq as [[_ Y]|[Y (a & -> & Ya)]]; [now left|].
      right. now exists a. }
    intros e H. destruct o as [u|e']; [discriminate H|]. cbn [fst] in H.
    destruct (X e' eq_refl) as (Xf & Xc).
    split; [rewrite !existsb_app, Ad, Gd, Pd; reflexivity|].
    split; [intros L; rewrite !existsb_app, Af, Gf, Xf; reflexivity|].
    rewrite !succeeded_app, !existsb_app, Aa, Ga, A.
    assert (S0 : forall v, succeeded v (announced cm bn) = false)
      by (intros v; unfold succeeded; now rewrite Ar).
    assert (S1 : forall v, succeeded v gate = false)
      by (intros v; unfold succeeded; now rewrite Gr).
    rewrite !S0, !S1. cbn [orb]. rewrite orb_false_r.
    destruct Xc as [Xc|[Xt Xc]]; [left; exact Xc|].
    right. rewrite Xt. split; [reflexivity|exact Xc]. }
  (* the body that follows a commit message other than None *)
  assert (Body :
            let r :=
              (print [Lit (lit "Generated:")] ;;
               (if truthy bn
                then print [Lit (lit "Branch name: "); Val bn]
                else ret tt) ;;
               print [Lit (lit "Commit message: "); Val cm] ;;
               go <- (if yes args then ret true
                      else confirm <-
                             input (lit "Execute git commit and checkout? (y/n): ") ;;
                           ret (is_yes confirm)) ;;
               if go : bool
               then execute_git_commands cm bn args ;; ret tt
               else ret tt) env tr0 in
            exists new,
              snd r = tr0 ++ new /\
              forallb local_event new = true /\
              (questions new = [] \/
               yes args = false /\
               exists a, questions new = [(q_execute, a)] /\
                 (is_yes a = false -> runs new = [] /\ fst r = Returns tt)) /\
              (runs new <> [] ->
               (yes args = true \/
                exists a, questions new = [(q_execute, a)] /\ is_yes a = true) /\
               exists m, cm = JString m /\
                 (exists k, List.map fst (runs new)
                            = firstn k (planned m (as_branch bn) args)) /\
                 forallb snd (removelast (runs new)) = true) /\
              (forall e, fst r = Raises e ->
                 existsb declined new = false /\
                 (forall L, existsb (fatal_event L) new = false) /\
                 (succeeded (lit "commit") new = false \/
                  existsb announces_branch new = true /\
                  succeeded (lit "checkout") new = false))).
  { cbv zeta.
    assert (T : forall k : IO unit,
              (print [Lit (lit "Generated:")] ;;
               (if truthy bn
                then print [Lit (lit "Branch name: "); Val bn]
                else ret tt) ;;
               print [Lit (lit "Commit message: "); Val cm] ;; k) env tr0
              = k env (tr0 ++ announced cm bn)).
    { intros k. unfold announced, bind, print, ret.
      destruct (truthy bn); cbn [app]; now rewrite <- ?app_assoc. }
    rewrite T. rewrite bind_eq.
    destruct (yes args) eqn:Y.
    - rewrite ret_eq.
      specialize (Run [] (or_introl (conj eq_refl eq_refl))).
      cbv zeta in Run. rewrite app_nil_r in Run.
      exact Run.
    - rewrite bind_eq, input_eq, ret_eq.
      set (a := stdin env (tr0 ++ announced cm bn) _).
      destruct (is_yes a) eqn:Ya.
      + specialize (Run [EvInput q_execute a]).
        cbv zeta in Run. rewrite <- app_assoc. apply Run.
        right. split; [reflexivity|]. now exists a.
      + rewrite ret_eq. cbn [fst snd].
        exists (announced cm bn ++ [EvInput q_execute a]).
        split; [now rewrite <- app_assoc|].
        split; [rewrite forallb_app, Al; reflexivity|].
        rewrite questions_app, runs_app, Aq, Ar. cbn [app questions runs].
        split; [right; split; [reflexivity|]; exists a; now split|].
        split; [intros H; now contradiction H|].
        intros e H. discriminate H. }
  destruct cm; try exact ltac:(
    cbv zeta in Body;
    destruct Body as (new & B1 & B2 & B3 & B4 & B5);
    exists new; split; [exact B1|]; split; [exact B2|];
    split; [intros H; discriminate H|];
    split; [exact B3|]; split; [exact B4|exact B5]).
  exists []. cbn [handle_plan]. rewrite ret_eq. cbn [fst snd].
  split; [now rewrite app_nil_r|]. split; [reflexivity|].
  split; [now split|]. split; [now left|].
  split; [intros H; now contradiction H|].
  intros e H. discriminate H.
Qed.

Ltac step R :=
  lazymatch type of R with
  | context [bind (parse_response _ _) _ _ _] => fail
  | _ =>
      first [ rewrite bind_eq in R
            | rewrite ret_eq in R
            | rewrite print_eq in R
            | rewrite input_eq in R
            | rewrite write_file_eq in R
            | rewrite encode_count_eq in R
            | rewrite create_completion_eq in R ];
      cbv beta iota zeta in R
  end.

(** ** The stages of a run *)

Ltac shape_trace O :=
  cbv zeta; unfold inspected, prepared, copied, usage_lines, model_of;
  rewrite ?O; cbv zeta;
  rewrite <- ?app_assoc; cbn [app text_of]; reflexivity.

Lemma main_anatomy (args : Args) (config : Config) (env : Env) :
  anatomy args config env (main args config env []).
Proof.
  remember (main args config env []) as r eqn:R.
  unfold main in R.
  destruct (nonempty (openai_api_key config)) eqn:K;
    [|rewrite R; now apply NoCredential].
  rewrite bind_eq, get_git_status_run in R.
  destruct (subprocess env [] status_command) as [status|] eqn:S;
    [|rewrite R; now apply NoRepository].
  destruct (undecodable env [] status_command);
    [rewrite R; now apply StatusGarbled|].
  cbv beta iota in R. rewrite bind_eq, get_git_diff_run in R.
  cbv beta iota zeta in R.
  assert (Cases :
            (exists out, subprocess env ([] ++ [EvRun status_command (Some status)])
                           (diff_command config) = Some out /\
                         undecodable env ([] ++ [EvRun status_command (Some status)])
                           (diff_command config) = true) \/
            exists diff,
              match subprocess env ([] ++ [EvRun status_command (Some status)])
                      (diff_command config) with
              | Some out =>
                  if undecodable env ([] ++ [EvRun status_command (Some status)])
                       (diff_command config)
                  then (Raises UnicodeDecodeError,
                        ([] ++ [EvRun status_command (Some status)]) ++
                        [EvGarbled (diff_command config)])
                  else (Returns out,
                        ([] ++ [EvRun status_command (Some status)]) ++
                        [EvRun (diff_command config) (Some out)])
              | None =>
                  (Returns [],
                   ([] ++ [EvRun status_command (Some status)]) ++
                   [EvRun (diff_command config) None])
              end
              = (Returns (text_of diff),
                 [EvRun status_command (Some status);
                  EvRun (diff_command config) diff])).
  { destruct (subprocess env _ (diff_command config)) as [out|];
      [destruct (undecodable env _ (diff_command config))|].
    - left. now exists out.
    - right. now exists (Some out).
    - right. now exists None. }
  destruct Cases as [(out & D & U)|(diff & D)].
  { rewrite D, U in R. rewrite R. now apply DiffGarbled. }
  rewrite D in R. clear D S.
  rewrite bind_eq in R.
  destruct (nonempty (output args)) eqn:O; repeat step R.
  all: match type of R with
       | context [estimator_fault ?e ?t ?n ?p] =>
           destruct (estimator_fault e t n p)
       end.
  all: try (rewrite R; clear R;
            match goal with
            | |- anatomy _ _ _ (_, ?t) =>
                replace t
                  with ([EvRun status_command (Some status);
                         EvRun (diff_command config) diff] ++
                        copied args (build_prompt status (text_of diff) args config) ++
                        [EvEncodeFault (model_of config)
                           (build_prompt status (text_of diff) args config)])
                  by shape_trace O
            end;
            now apply EstimatorFailed).
  all: match type of R with
       | context [encoding ?e ?t ?n ?p] =>
           set (count := encoding e t n p) in R; clearbody count
       end.
  all: destruct count as [n|]; repeat step R.
  all: set (y := yes args) in R at 1;
       assert (Y : y = yes args) by reflexivity; clearbody y; symmetry in Y;
       destruct y; repeat step R.
  all: try match type of R with
         | context [if is_yes ?x then _ else _] =>
             set (reply := x) in R; clearbody reply;
             destruct (is_yes reply) eqn:Q
         end.
  all: try (rewrite R; clear R;
            match goal with
            | |- anatomy _ _ _ (_ _ ?t) =>
                match t with
                | context [EvEncode _ _ ?c] =>
                    replace t
                      with (inspected args config status diff c ++
                            [EvInput q_generate reply])
                      by shape_trace O
                end
            end;
            now apply GenerationDeclined).
  all: unfold call_openai in R; repeat step R.
  all: match type of R with
       | context [completions ?e ?t ?c ?q] =>
           destruct (completions e t c q) as [[content usage]|]
       end.
  all: try destruct usage as [u|].
  all: repeat step R.
  all: rewrite R; clear R.
  all: try match goal with
         | |- anatomy _ _ _ (bind (parse_response ?res ?a) _ ?e ?t) =>
             change (anatomy args config env (handle_reply res a e t))
         end.
  all: match goal with
       | |- anatomy _ _ _ (_ _ ?t) =>
           match t with
           | context [EvEncode _ _ ?c] =>
               match t with
               | context [EvInput ?q ?rep] =>
                   match t with
                   | context [EvChat _ _ (Some (_, ?us))] =>
                       replace t
                         with (inspected args config status diff c ++
                               [EvInput q_generate rep] ++
                               [EvChat (client_of config)
                                  (request_of (build_prompt status (text_of diff) args config)
                                     config) (Some (content, us))] ++
                               usage_lines us)
                         by shape_trace O
                   | context [EvChat _ _ None] =>
                       replace t
                         with (inspected args config status diff c ++
                               [EvInput q_generate rep] ++
                               [EvChat (client_of config)
                                  (request_of (build_prompt status (text_of diff) args config)
                                     config) None;
                                EvPrint [Lit (lit "OpenAI API error: "); Exc]])
                         by shape_trace O
                   end
               | _ =>
                   match t with
                   | context [EvChat _ _ (Some (_, ?us))] =>
                       replace t
                         with (inspected args config status diff c ++
                               [] ++
                               [EvChat (client_of config)
                                  (request_of (build_prompt status (text_of diff) args config)
                                     config) (Some (content, us))] ++
                               usage_lines us)
                         by shape_trace O
                   | context [EvChat _ _ None] =>
                       replace t
                         with (inspected args config status diff c ++
                               [] ++
                               [EvChat (client_of config)
                                  (request_of (build_prompt status (text_of diff) args config)
                                     config) None;
                                EvPrint [Lit (lit "OpenAI API error: "); Exc]])
                         by shape_trace O
                   end
               end
           end
       end.
  all: first [apply Replied | apply BackendFailed]; try exact K.
  all: first [left; split; [exact Y|reflexivity]
             | right; split; [exact Y|]; eexists; split; [eassumption|reflexivity]].
Qed.

Lemma rstrip_idem (s : str) : rstrip (rstrip s) = rstrip s.
Proof. unfold rstrip. now rewrite rev_involutive, lstrip_idem. Qed.

Lemma strip_idem (s : str) : strip (strip s) = strip s.
Proof.
  unfold strip. destruct (lstrip s) as [|a y] eqn:E; [reflexivity|].
  apply lstrip_head in E.
  change (a :: y) with ([] ++ a :: y).
  rewrite rstrip_app_stop by exact E. cbn [app].
  rewrite lstrip_stop by exact E.
  change (a :: rstrip y) with ([] ++ a :: rstrip y).
  rewrite rstrip_app_stop by exact E. cbn [app].
  now rewrite rstrip_idem.
Qed.

Lemma clean_strip (s : str) : clean (strip s) = clean s.
Proof. unfold clean. now rewrite strip_idem. Qed.

(** What follows the backend's reply, by the decoder's verdict on the
    cleaned text. *)
Lemma reply_course (result : str) (args : Args) (env : Env) (tr0 : list event) :
  let r := handle_reply result args env tr0 in
  let d := json_loads (interpreter env) (clean result) in
  exists new,
    snd r = tr0 ++ new /\
    forallb local_event new = true /\
    (questions new = [] \/
     yes args = false /\
     exists a, questions new = [(q_execute, a)] /\
       (is_yes a = false -> runs new = [] /\ fst r = Returns tt)) /\
    (runs new <> [] ->
     (yes args = true \/
      exists a, questions new = [(q_execute, a)] /\ is_yes a = true) /\
     exists pairs m,
       d = Got (JObject pairs) /\
       dict_get pairs (lit "commit_message") = Some (JString m) /\
       (exists k, List.map fst (runs new)
                  = firstn k (planned m (as_branch (branch_of pairs args)) args)) /\
       forallb snd (removelast (runs new)) = true) /\
    (forall e, fst r = Raises e ->
       d <> Bad /\
       existsb declined new = false /\
       (forall L, existsb (fatal_event L) new = false) /\
       (succeeded (lit "commit") new = false \/
        existsb announces_branch new = true /\
        succeeded (lit "checkout") new = false)) /\
    (forall v, d = Got v -> misshapen v = true ->
       fst r = Raises (match v with JObject _ => KeyError | _ => TypeError end) /\
       new = []) /\
    (d = Bad ->
     fst r = Returns tt /\
     new = [EvPrint [Lit (lit "AI Response: "); Val (JString (clean result))];
            EvPrint [Lit (lit "Failed to parse JSON response.")]]) /\
    (forall x, d = Over x -> fst r = Raises (limit_exn x) /\ new = []) /\
    (forall pairs, d = Got (JObject pairs) ->
       dict_get pairs (lit "commit_message") = Some JNull ->
       fst r = Returns tt /\ new = []).
Proof.
  cbv zeta. unfold handle_reply. rewrite bind_eq. unfold parse_response.
  destruct (json_loads (interpreter env) (clean result)) as [v| |x] eqn:L.
  2:{ unfold bind, print, ret, rejected, handle_plan. cbn [fst snd].
      rewrite <- app_assoc. cbn [app].
      eexists. split; [reflexivity|].
      cbn [forallb local_event questions runs andb].
      split; [reflexivity|]. split; [now left|].
      split; [intros H; now contradiction H|].
      split; [intros e H; discriminate H|].
      split; [intros v H; discriminate H|].
      split; [intros _; split; reflexivity|].
      split; [intros x H; discriminate H|].
      intros pairs H; discriminate H. }
  2:{ unfold raise. cbn [fst snd]. exists [].
      split; [now rewrite app_nil_r|].
      split; [reflexivity|]. split; [now left|].
      split; [intros H; now contradiction H|].
      split; [intros e _; split; [discriminate|]; split; [reflexivity|];
              split; [reflexivity|now left]|].
      split; [intros v H; discriminate H|].
      split; [intros H; discriminate H|].
      split; [intros y H; injection H as <-; now split|].
      intros pairs H; discriminate H. }
  assert (Odd : forall e : exn,
            misshapen v = true ->
            e = match v with JObject _ => KeyError | _ => TypeError end ->
            exists new : list event,
              snd (@Raises unit e, tr0) = tr0 ++ new /\
              forallb local_event new = true /\
              (questions new = [] \/
               yes args = false /\
               exists a, questions new = [(q_execute, a)] /\
                 (is_yes a = false ->
                  runs new = [] /\ fst (@Raises unit e, tr0) = Returns tt)) /\
              (runs new <> [] ->
               (yes args = true \/
                exists a, questions new = [(q_execute, a)] /\ is_yes a = true) /\
               exists pairs m,
                 Got v = Got (JObject pairs) /\
                 dict_get pairs (lit "commit_message") = Some (JString m) /\
                 (exists k, List.map fst (runs new)
                            = firstn k (planned m (as_branch (branch_of pairs args)) args)) /\
                 forallb snd (removelast (runs new)) = true) /\
              (forall e', fst (@Raises unit e, tr0) = Raises e' ->
                 Got v <> Bad /\
                 existsb declined new = false /\
                 (forall L, existsb (fatal_event L) new = false) /\
                 (succeeded (lit "commit") new = false \/
                  existsb announces_branch new = true /\
                  succeeded (lit "checkout") new = false)) /\
              (forall v', Got v = Got v' -> misshapen v' = true ->
                 fst (@Raises unit e, tr0)
                 = Raises (match v' with JObject _ => KeyError | _ => TypeError end) /\
                 new = []) /\
              (Got v = Bad ->
               fst (@Raises unit e, tr0) = Returns tt /\
               new = [EvPrint [Lit (lit "AI Response: "); Val (JString (clean result))];
                      EvPrint [Lit (lit "Failed to parse JSON response.")]]) /\
              (forall x, Got v = Over x ->
                 fst (@Raises unit e, tr0) = Raises (limit_exn x) /\ new = []) /\
              (forall pairs, Got v = Got (JObject pairs) ->
                 dict_get pairs (lit "commit_message") = Some JNull ->
                 fst (@Raises unit e, tr0) = Returns tt /\ new = [])).
  { intros e M ->. exists []. cbn [fst snd].
    split; [now rewrite app_nil_r|].
    split; [reflexivity|]. split; [now left|].
    split; [intros H; now contradiction H|].
    split; [intros e' _; split; [discriminate|]; split; [reflexivity|];
            split; [reflexivity|now left]|].
    split; [intros v' H _; injection H as <-; now split|].
    split; [intros H; discriminate H|].
    split; [intros x H; discriminate H|].
    intros pairs H G. injection H as ->. cbn [misshapen] in M.
    rewrite G in M. discriminate M. }
  destruct v as [| | | | | | |?|pairs];
    try (unfold raise; apply Odd; reflexivity).
  destruct (dict_get pairs (lit "commit_message")) as [cm|] eqn:G.
  2:{ unfold raise. apply Odd; [cbn [misshapen]; now rewrite G|reflexivity]. }
  clear Odd. rewrite ret_eq. cbv beta iota. fold (branch_of pairs args).
  destruct (plan_course cm (branch_of pairs args) args env tr0)
    as (new & E & Q & N & I & R & X).
  cbv zeta in *.
  exists new. split; [exact E|]. split; [exact Q|]. split; [exact I|].
  split.
  { intros H. destruct (R H) as (Gt & m & -> & P & S).
    split; [exact Gt|]. exists pairs, m. auto. }
  split.
  { intros e H. split; [discriminate|]. now apply (X e). }
  split.
  { intros v H M. injection H as <-. cbn [misshapen] in M. rewrite G in M.
    discriminate M. }
  split; [intros H; discriminate H|].
  split; [intros x H; discriminate H|].
  intros pairs' H G'. injection H as <-. rewrite G in G'. injection G' as ->.
  destruct (N eq_refl) as [-> F]. now split.
Qed.

(** ** The run, read by kind of event *)

Lemma copied_quiet (args : Args) (P : str) :
  runs (copied args P) = [] /\
  questions (copied args P) = [] /\
  chats (copied args P) = [] /\
  existsb declined (copied args P) = false /\
  (forall L, existsb (fatal_event L) (copied args P) = false) /\
  existsb announces_branch (copied args P) = false /\
  writes (copied args P)
  = (if nonempty (output args) then [(text_of (output args), P)] else []) /\
  estimates (copied args P) = [].
Proof.
  unfold copied. destruct (nonempty (output args)); now repeat split.
Qed.

Lemma prepared_quiet (args : Args) (config : Config) (P : str) (count : option nat) :
  runs (prepared args config P count) = [] /\
  questions (prepared args config P count) = [] /\
  chats (prepared args config P count) = [] /\
  existsb declined (prepared args config P count) = false /\
  writes (prepared args config P count)
  = (if nonempty (output args) then [(text_of (output args), P)] else []) /\
  estimates (prepared args config P count) = [(model_of config, P)] /\
  (forall L, existsb (fatal_event L) (prepared args config P count) = false) /\
  existsb announces_branch (prepared args config P count) = false.
Proof.
  unfold prepared, copied. destruct (nonempty (output args)), count; now repeat split.
Qed.

Lemma usage_quiet (usage : option Usage) :
  runs (usage_lines usage) = [] /\
  questions (usage_lines usage) = [] /\
  chats (usage_lines usage) = [] /\
  existsb declined (usage_lines usage) = false /\
  writes (usage_lines usage) = [] /\
  estimates (usage_lines usage) = [] /\
  (forall L, existsb (fatal_event L) (usage_lines usage) = false) /\
  existsb announces_branch (usage_lines usage) = false.
Proof. destruct usage; now repeat split. Qed.

Lemma gate_facts (args : Args) (gate : list event) :
  passed_gate args gate ->
  runs gate = [] /\ chats gate = [] /\ existsb declined gate = false /\
  writes gate = [] /\ estimates gate = [] /\
  (yes args = true /\ questions gate = [] \/
   yes args = false /\
   exists a, is_yes a = true /\ questions gate = [(q_generate, a)]) /\
  (forall L, existsb (fatal_event L) gate = false) /\
  existsb announces_branch gate = false.
Proof.
  intros [[Y ->]|[Y (a & Q & ->)]];
    cbn [runs chats existsb declined writes estimates questions fatal_event
         announces_branch orb];
    rewrite ?Q; repeat (split; [reflexivity|]);
    (split; [|now split]); [left|right]; eauto.
Qed.

Ltac read_trace :=
  rewrite ?runs_app, ?questions_app, ?chats_app, ?writes_app, ?estimates_app,
    ?existsb_app.

Lemma inspected_quiet (args : Args) (config : Config)
  (status : str) (diff : option str) (count : option nat) :
  (forall L, existsb (fatal_event L) (inspected args config status diff count) = false) /\
  existsb declined (inspected args config status diff count) = false /\
  existsb announces_branch (inspected args config status diff count) = false /\
  (forall v, str_eqb (lit "status") v = false -> str_eqb (lit "diff") v = false ->
     succeeded v (inspected args config status diff count) = false).
Proof.
  unfold inspected.
  destruct (prepared_quiet args config (build_prompt status (text_of diff) args config) count)
    as (Pr & Pq & Pc & Pd & Pw & Pe & Pf & Pa).
  split; [intros L; rewrite existsb_app, Pf; now destruct diff|].
  split; [rewrite existsb_app, Pd; reflexivity|].
  split; [rewrite existsb_app, Pa; reflexivity|].
  intros v S D. unfold succeeded. rewrite runs_app, Pr.
  cbn [app runs existsb fst snd].
  change (verb status_command) with (lit "status").
  change (verb (diff_command config)) with (lit "diff").
  rewrite S, D. now destruct diff.
Qed.

(** C3 (amended).  The exit status is zero whenever [main] returns, and
    [main] returns on full completion, on a declined confirmation and also
    on every fatal condition it handles: a missing credential, a failed
    status query, an error of the backend, a reply that the decoder refuses
    with [JSONDecodeError] under the interpreter's limits and that holds no
    surrogate, and a failed commit, branch creation or push. *)
Theorem exit_status_zero (args : Args) (config : Config) (env : Env) :
  let r := main args config env [] in
  nonempty (openai_api_key config) = false \/
  existsb (fatal_event (interpreter env)) (snd r) = true \/
  existsb declined (snd r) = true \/
  completed args (snd r) = true ->
  exit_status (fst r) = 0%Z.
Proof.
  cbv zeta.
  pose proof (main_anatomy args config env) as A.
  remember (main args config env []) as r eqn:R. clear R.
  destruct A as [K|K|K|status K|status diff K|status diff count reply K Y Q
                |status diff count gate K G|status diff count gate content usage K G];
    try reflexivity; cbn [fst snd].
  - intros [H|[H|[H|H]]]; [congruence|discriminate H|discriminate H|discriminate H].
  - intros [H|[H|[H|H]]]; [congruence|discriminate H|discriminate H|].
    vm_compute in H. discriminate H.
  - destruct (copied_quiet args (build_prompt status (text_of diff) args config))
      as (Cr & Cq & Cc & Cd & Cf & Ca & Cw & Ce).
    intros [H|[H|[H|H]]]; [congruence| | |].
    + rewrite !existsb_app, Cf in H. destruct diff; discriminate H.
    + rewrite !existsb_app, Cd in H. discriminate H.
    + unfold completed, succeeded in H. rewrite !runs_app, Cr in H.
      destruct diff; vm_compute in H; discriminate H.
  - destruct (reply_course (strip content) args env
                (inspected args config status diff count ++ gate ++
                 [EvChat (client_of config)
                    (request_of (build_prompt status (text_of diff) args config) config)
                    (Some (content, usage))] ++ usage_lines usage))
      as (new & E & L & I & C & X & _).
    cbv zeta in E, X.
    destruct (handle_reply (strip content) args env _) as [[u|e] tr];
      [reflexivity|].
    cbn [fst snd] in *. subst tr.
    destruct (X e eq_refl) as (Nb & Xd & Xf & Xc).
    destruct (inspected_quiet args config status diff count) as (If & Id & Ia & Is).
    destruct (gate_facts G) as (Gr & Gc & Gd & Gw & Ge & Gq & Gf & Ga).
    destruct (usage_quiet usage) as (Ur & Uq & Uc & Ud & Uw & Ue & Uf & Ua).
    assert (S0 : forall v, succeeded v gate = false)
      by (intros v; unfold succeeded; now rewrite Gr).
    assert (S1 : forall v, succeeded v (usage_lines usage) = false)
      by (intros v; unfold succeeded; now rewrite Ur).
    intros [H|[H|[H|H]]]; [congruence| | |].
    + rewrite !existsb_app, If, Gf, Uf, Xf in H.
      cbn [existsb fatal_event orb] in H.
      destruct (json_loads (interpreter env) (clean (strip content)));
        [discriminate H|now contradiction Nb|discriminate H].
    + rewrite !existsb_app, Id, Gd, Ud, Xd in H. discriminate H.
    + unfold completed in H.
      rewrite !succeeded_app, !existsb_app, Ia, Ga, Ua, !S0, !S1 in H.
      rewrite !Is in H by reflexivity.
      change (succeeded ?v [EvChat ?c ?q ?r]) with false in H.
      cbn [existsb announces_branch orb] in H.
      destruct Xc as [Xc|[Xa Xc]]; rewrite ?Xa, Xc in H;
        [discriminate H|].
      cbn [implb] in H.
      destruct (succeeded (lit "commit") new); discriminate H.
Qed.

Lemma exit_status_zero_witness :
  exit_status (fst (main plain_args sample_config silent_env [])) = 0%Z /\
  exit_status (fst (main plain_args other_config silent_env [])) = 0%Z /\
  exit_status
    (fst (main branch_push_args sample_config
            (scripted_env [lit "push"]
               (sq "{'commit_message': 'fix: typo', 'branch_name': 'fix/typo'}")) []))
  = 0%Z /\
  exit_status
    (fst (main branch_push_args sample_config
            (scripted_env []
               (sq "{'commit_message': 'fix: typo', 'branch_name': 'fix/typo'}")) []))
  = 0%Z /\
  exit_status
    (fst (main plain_args sample_config (scripted_env [] (lit "Sure, here it is.")) []))
  = 0%Z.
Proof.
  split; [|split; [|split; [|split]]].
  - apply (exit_status_zero plain_args sample_config silent_env).
    right; left. reflexivity.
  - apply (exit_status_zero plain_args other_config silent_env).
    left. reflexivity.
  - apply (exit_status_zero branch_push_args sample_config
             (scripted_env [lit "push"]
                (sq "{'commit_message': 'fix: typo', 'branch_name': 'fix/typo'}"))).
    right; left. vm_compute. reflexivity.
  - apply (exit_status_zero branch_push_args sample_config
             (scripted_env []
                (sq "{'commit_message': 'fix: typo', 'branch_name': 'fix/typo'}"))).
    right; right; right. vm_compute. reflexivity.
  - apply (exit_status_zero plain_args sample_config
             (scripted_env [] (lit "Sure, here it is."))).
    right; left. vm_compute. reflexivity.
Defined.

(** * Further properties of the code *)

(** ** More on the repository inspector *)

Lemma exclusions_nth (files : list str) (i : nat) (file : str) :
  nth_error files i = Some file ->
  nth_error (flat_map (fun f => [lit "--"; lit ":(exclude)" ++ f]) files) (2 * i)
  = Some (lit "--") /\
  nth_error (flat_map (fun f => [lit "--"; lit ":(exclude)" ++ f]) files) (1 + 2 * i)
  = Some (lit ":(exclude)" ++ file).
Proof.
  revert i. induction files as [|f files IH]; intros i H.
  - destruct i; discriminate.
  - destruct i as [|i].
    + injection H as ->. split; reflexivity.
    + apply IH in H. replace (2 * S i) with (S (S (2 * i))) by lia.
      replace (1 + S (S (2 * i))) with (S (S (1 + 2 * i))) by lia.
      exact H.
Qed.

(** X1.  The diff query passes the ignore list through as it is: after
    [git diff --staged] the command holds, for each entry and in the order
    of the list, a [--] and the entry behind [:(exclude)]; entries are
    neither dropped, merged nor checked, and with an empty list the command
    is [git diff --staged] alone.  It is this command that the query
    runs. *)
Theorem diff_command_passes_ignore_list (config : Config) :
  length (diff_command config) = 3 + 2 * length (ignore_files config) /\
  firstn 3 (diff_command config) = [lit "git"; lit "diff"; lit "--staged"] /\
  (forall i file,
     nth_error (ignore_files config) i = Some file ->
     nth_error (diff_command config) (3 + 2 * i) = Some (lit "--") /\
     nth_error (diff_command config) (4 + 2 * i) = Some (lit ":(exclude)" ++ file)) /\
  (forall env tr, runs (snd (get_git_diff config env tr))
                  = runs tr ++ [(diff_command config,
                                 match subprocess env tr (diff_command config) with
                                 | Some _ => true
                                 | None => false
                                 end)]).
Proof.
  split; [|split; [|split]].
  - unfold diff_command. cbn [app length]. do 3 f_equal.
    induction (ignore_files config) as [|f l IH]; [reflexivity|].
    cbn [flat_map app length]. rewrite IH. lia.
  - reflexivity.
  - intros i file H. unfold diff_command. split; apply (exclusions_nth _ _ H).
  - intros env tr. rewrite get_git_diff_run.
    destruct (subprocess env tr (diff_command config));
      [destruct (undecodable env tr (diff_command config))|];
      cbn [snd]; rewrite runs_app; reflexivity.
Qed.

Lemma diff_command_passes_ignore_list_witness :
  nth_error (diff_command other_config) 3 = Some (lit "--") /\
  nth_error (diff_command other_config) 4 = Some (lit ":(exclude)*.lock").
Proof.
  destruct (diff_command_passes_ignore_list other_config) as (_ & _ & H & _).
  exact (H 0 (lit "*.lock") eq_refl).
Defined.

(** ** The generation client *)

(** X2.  The client asks the backend once and never raises: it sends the
    prompt as it is, the configured model or the default one, and a token
    cap only when one other than zero is configured; it answers [None]
    exactly when the backend errors, and otherwise the reply without
    surrounding whitespace; all it leaves besides the request is
    printing. *)
Theorem call_openai_asks_once
  (client : Client) (prompt : str) (config : Config) (env : Env) (tr : list event) :
  exists request reply prints,
    call_openai client prompt config env tr
    = (Returns (option_map (fun p => strip (fst p)) reply),
       tr ++ EvChat client request reply :: prints) /\
    forallb is_print prints = true /\
    reply = completions env tr client request /\
    req_content request = prompt /\
    req_model request
    = match model config with Some m => m | None => DEFAULT_MODEL end /\
    req_max_tokens request <> Some 0%Z /\
    (forall n, max_tokens config = Some n -> n <> 0%Z ->
       req_max_tokens request = Some n) /\
    (max_tokens config = None -> req_max_tokens request = None) /\
    (forall s, option_map (fun p => strip (fst p)) reply = Some s -> strip s = s).
Proof.
  unfold call_openai. rewrite bind_eq, create_completion_eq. cbv beta iota.
  match goal with
  | |- context [completions env tr client ?q] =>
      exists q, (completions env tr client q)
  end.
  destruct (completions env tr client _) as [[content [u|]]|];
    repeat (rewrite ?bind_eq, ?print_eq, ?ret_eq; cbv beta iota);
    rewrite <- ?app_assoc; cbn [app];
    eexists; (split; [reflexivity|]);
    (split; [reflexivity|]);
    (split; [reflexivity|]);
    (split; [reflexivity|]);
    (split; [reflexivity|]);
    cbn [req_max_tokens];
    (split; [destruct (max_tokens config) as [n|];
             [destruct (n =? 0)%Z eqn:Z; [discriminate|];
              intros H; injection H as ->; discriminate Z
             |discriminate]|]);
    (split; [intros n -> Hn; apply Z.eqb_neq in Hn; now rewrite Hn|]);
    (split; [now intros ->|]);
    cbn [option_map fst]; intros s H; try discriminate H;
    injection H as <-; apply strip_idem.
Qed.

Lemma call_openai_asks_once_witness :
  exists request reply prints,
    call_openai {| api_key := lit "sk-test"; client_base_url := None |}
      (lit "hello") other_config (replying_env (lit " ok ")) []
    = (Returns (option_map (fun p => strip (fst p)) reply),
       [] ++ EvChat {| api_key := lit "sk-test"; client_base_url := None |}
               request reply :: prints) /\
    req_model request = lit "gpt-4o" /\
    req_max_tokens request = Some 256%Z.
Proof.
  destruct (call_openai_asks_once {| api_key := lit "sk-test"; client_base_url := None |}
              (lit "hello") other_config (replying_env (lit " ok ")) [])
    as (request & reply & prints & E & _ & _ & _ & M & _ & H & _).
  exists request, reply, prints.
  split; [exact E|]. split; [exact M|].
  apply H; [reflexivity|discriminate].
Defined.

(** ** More on the response parser *)

Lemma parse_response_clean (a b : str) (args : Args) :
  clean a = clean b -> parse_response a args = parse_response b args.
Proof. intros H. unfold parse_response. now rewrite H. Qed.

Lemma clean_leading_fence (o1 o2 i1 : str) (a b : N) (x : str) :
  forallb isspace o1 = true -> forallb isspace o2 = true ->
  forallb isspace i1 = true ->
  isspace a = false -> isspace b = false -> b <> 96%N ->
  clean (o1 ++ (fence_open ++ i1 ++ a :: x ++ [b]) ++ o2) = a :: x ++ [b].
Proof.
  intros H1 H2 H3 Ha Hb Nb. unfold clean.
  set (t := a :: x ++ [b]).
  assert (E : fence_open ++ i1 ++ t
              = 96%N :: (skipn 1 fence_open ++ i1 ++ a :: x) ++ [b]).
  { unfold t. change fence_open with (96%N :: skipn 1 fence_open).
    cbn [app]. f_equal. rewrite <- !app_assoc. reflexivity. }
  rewrite E, strip_padded by (assumption || reflexivity).
  rewrite <- E, startswith_app.
  change 7 with (length fence_open). rewrite slice_from_app.
  assert (F : endswith fence_close (i1 ++ t) = false).
  { unfold endswith, t.
    replace (i1 ++ a :: x ++ [b]) with ((i1 ++ a :: x) ++ [b])
      by now rewrite <- app_assoc.
    rewrite rev_app_distr.
    change (startswith (rev fence_close) (rev [b] ++ rev (i1 ++ a :: x)))
      with ((96 =? b)%N && startswith [96; 96]%N (rev (i1 ++ a :: x))).
    apply N.eqb_neq in Nb. rewrite N.eqb_sym in Nb. now rewrite Nb. }
  rewrite F.
  replace (i1 ++ t) with (i1 ++ t ++ []) by now rewrite app_nil_r.
  unfold t. now apply strip_padded.
Qed.

(** X3.  A reply that has only one of the two fence markers, the opening
    [```json] or the closing [```], is read exactly as the text [{...}]
    between them is, whatever whitespace surrounds the text and the
    marker. *)
Theorem parse_tolerates_single_fence
  (inner o1 o2 i : str) (args : Args) :
  let text := 123%N :: inner ++ [125%N] in
  forallb isspace o1 = true -> forallb isspace o2 = true ->
  forallb isspace i = true ->
  parse_response (o1 ++ (fence_open ++ i ++ text) ++ o2) args
  = parse_response text args /\
  parse_response (o1 ++ (text ++ i ++ fence_close) ++ o2) args
  = parse_response text args.
Proof.
  intros text H1 H2 H3.
  assert (B : clean text = text).
  { generalize (@clean_bare [] [] 123%N 125%N inner eq_refl eq_refl eq_refl eq_refl).
    cbn [app]. rewrite app_nil_r. intros B. apply B; discriminate. }
  split; apply parse_response_clean; rewrite B.
  - apply clean_leading_fence; (assumption || reflexivity || discriminate).
  - replace (o1 ++ (text ++ i ++ fence_close) ++ o2)
      with ((o1 ++ text ++ i) ++ fence_close ++ o2)
      by now rewrite <- !app_assoc.
    rewrite clean_trailing_fence.
    + replace (o1 ++ text ++ i) with (o1 ++ text ++ i)%list by reflexivity.
      unfold text. apply strip_padded; (assumption || reflexivity).
    + exact H2.
    + rewrite lstrip_spaces by exact H1. reflexivity.
Qed.

Lemma parse_tolerates_single_fence_witness :
  parse_response (fence_open ++ nl ++ sq "{'commit_message': 'fix: typo'}") plain_args
  = parse_response (sq "{'commit_message': 'fix: typo'}") plain_args /\
  parse_response (sq "{'commit_message': 'fix: typo'}" ++ nl ++ fence_close) plain_args
  = parse_response (sq "{'commit_message': 'fix: typo'}") plain_args.
Proof.
  exact (@parse_tolerates_single_fence (sq "'commit_message': 'fix: typo'")
           [] [] nl plain_args eq_refl eq_refl eq_refl).
Defined.

(** ** More on the command executor *)

Lemma passable_commit (env : Env) (tr : list event) (m out : str) :
  subprocess env tr (commit_argv m) = Some out -> arg_error m = None.
Proof.
  intros H. apply subprocess_some in H.
  unfold commit_argv in H. cbn [forallb] in H.
  apply andb_prop in H as [_ H]. apply andb_prop in H as [_ H].
  apply andb_prop in H as [_ H]. apply andb_prop in H as [H _].
  unfold passable in H. now destruct (arg_error m).
Qed.

(** X4.  What the executor does with values that are not a plan of
    strings.  A commit message that is not a string is a [TypeError]
    before any command runs.  A branch name that counts as false (an empty
    string, zero, an empty list) is treated as no branch name.  A branch
    name that counts as true and is not a string lets the commit run and
    then is a [TypeError]: the commit stays. *)
Theorem executor_on_other_values
  (cm bn : value) (args : Args) (env : Env) (tr : list event) :
  (is_string cm = false ->
   execute_git_commands cm bn args env tr = (Raises TypeError, tr)) /\
  (is_string cm = true -> truthy bn = false ->
   execute_git_commands cm bn args env tr
   = execute_git_commands cm JNull args env tr) /\
  (forall m out,
     cm = JString m -> truthy bn = true -> is_string bn = false ->
     subprocess env tr (commit_argv m) = Some out ->
     execute_git_commands cm bn args env tr
     = (Raises TypeError,
        tr ++ [EvRun (commit_argv m) (Some out); EvPrint [Lit (lit "Committed.")]])).
Proof.
  split; [|split].
  - intros H. unfold execute_git_commands, subprocess_run.
    rewrite bind_eq. destruct cm; try discriminate H; reflexivity.
  - intros H T. destruct cm; try discriminate H.
    unfold execute_git_commands, push_command, push_target.
    rewrite T. reflexivity.
  - intros m out -> T S R.
    unfold execute_git_commands. rewrite bind_eq.
    unfold subprocess_run at 1. rewrite argv_commit, (passable_commit _ _ _ R), R.
    cbv beta iota zeta.
    rewrite bind_eq, print_eq. cbv beta iota. rewrite T.
    rewrite !bind_eq. unfold subprocess_run.
    destruct bn; try discriminate S; cbn [checkout_command argv_strings];
      now rewrite <- app_assoc.
Qed.

Lemma executor_on_other_values_witness :
  execute_git_commands (JInt 5) JNull plain_args (replying_env []) []
  = (Raises TypeError, []) /\
  execute_git_commands (JString (lit "fix: typo")) (JInt 0) plain_args (replying_env []) []
  = execute_git_commands (JString (lit "fix: typo")) JNull plain_args (replying_env []) [] /\
  execute_git_commands (JString (lit "fix: typo")) (JInt 5) plain_args (replying_env []) []
  = (Raises TypeError,
     [EvRun (commit_argv (lit "fix: typo")) (Some []); EvPrint [Lit (lit "Committed.")]]).
Proof.
  split; [|split].
  - apply (proj1 (executor_on_other_values (JInt 5) JNull plain_args (replying_env []) [])).
    reflexivity.
  - apply (proj1 (proj2 (executor_on_other_values (JString (lit "fix: typo")) (JInt 0)
                           plain_args (replying_env []) []))); reflexivity.
  - apply (proj2 (proj2 (executor_on_other_values (JString (lit "fix: typo")) (JInt 5)
                           plain_args (replying_env []) []))
             (lit "fix: typo") []); reflexivity.
Defined.



(** X14.  A text that cannot be passed to a process stops the executor
    with an exception that no handler catches.  A commit message that holds
    U+0000 or a surrogate that the file system encoding cannot escape
    raises before any command runs.  Such a branch name, not empty, raises
    after the commit has run: the commit stays and no later command
    runs. *)
Theorem executor_refuses_unpassable_text
  (m : str) (bn : value) (args : Args) (env : Env) (tr : list event) :
  (forall e, arg_error m = Some e ->
     execute_git_commands (JString m) bn args env tr = (Raises e, tr)) /\
  (forall b e out,
     bn = JString b -> b <> [] -> arg_error b = Some e ->
     subprocess env tr (commit_argv m) = Some out ->
     execute_git_commands (JString m) bn args env tr
     = (Raises e,
        tr ++ [EvRun (commit_argv m) (Some out); EvPrint [Lit (lit "Committed.")]])) /\
  (forall s, In 0%N s -> existsb is_surrogate s = false ->
     arg_error s = Some ValueError) /\
  (forall s c, In c s -> is_surrogate c = true -> escapable c = false ->
     arg_error s = Some UnicodeEncodeError).
Proof.
  split; [|split; [|split]].
  - intros e H. unfold execute_git_commands. rewrite bind_eq.
    unfold subprocess_run at 1. now rewrite argv_commit, H.
  - intros b e out -> Nb H R.
    unfold execute_git_commands. rewrite bind_eq.
    unfold subprocess_run at 1. rewrite argv_commit, (passable_commit _ _ _ R), R.
    cbv beta iota zeta.
    rewrite bind_eq, print_eq. cbv beta iota.
    destruct b as [|c b]; [now contradiction Nb|]. cbn [truthy].
    rewrite !bind_eq. unfold subprocess_run at 1.
    rewrite argv_checkout, H. now rewrite <- app_assoc.
  - intros s H0 Hs. unfold arg_error.
    replace (existsb (fun c => is_surrogate c && negb (escapable c)) s) with false.
    + replace (existsb (N.eqb 0) s) with true; [reflexivity|].
      symmetry. apply existsb_exists. exists 0%N. now split.
    + symmetry. apply not_true_is_false. intros F.
      apply existsb_exists in F as (c & Hc & F).
      apply andb_prop in F as [F _].
      assert (G : existsb is_surrogate s = true)
        by (apply existsb_exists; now exists c).
      congruence.
  - intros s c Hc H1 H2. unfold arg_error.
    replace (existsb (fun c => is_surrogate c && negb (escapable c)) s) with true;
      [reflexivity|].
    symmetry. apply existsb_exists. exists c. split; [exact Hc|].
    now rewrite H1, H2.
Qed.

Lemma executor_refuses_unpassable_text_witness :
  execute_git_commands (JString (lit "fix" ++ [0%N])) JNull plain_args (replying_env []) []
  = (Raises ValueError, []) /\
  execute_git_commands (JString (lit "fix: typo")) (JString [55357%N]) branch_push_args
    (replying_env []) []
  = (Raises UnicodeEncodeError,
     [EvRun (commit_argv (lit "fix: typo")) (Some []); EvPrint [Lit (lit "Committed.")]]).
Proof.
  split.
  - apply (proj1 (executor_refuses_unpassable_text (lit "fix" ++ [0%N]) JNull plain_args
                    (replying_env []) [])).
    reflexivity.
  - apply (proj1 (proj2 (executor_refuses_unpassable_text (lit "fix: typo")
                           (JString [55357%N]) branch_push_args (replying_env []) []))
             [55357%N] UnicodeEncodeError []); try reflexivity.
    discriminate.
Defined.

(** ** More on the prompt builder *)

(** X6.  The status and the diff enter the prompt as they are and only at
    its end: whatever comes before [## Git status:] is fixed by the options
    and the settings alone.  So the length of a prompt is that of the
    prompt for an empty status and diff plus the lengths of the two
    texts. *)
Theorem prompt_context_is_verbatim (args : Args) (config : Config) :
  exists before,
    forall status diff,
      build_prompt status diff args config
      = before ++ ln "## Git status:" ++ status ++ nl ++
        ln "## Git diff:" ++ diff ++ nl /\
      length (build_prompt status diff args config)
      = length (build_prompt [] [] args config) + length status + length diff.
Proof.
  exists (prompt_head (branch args) ++ prompt_extras args config ++ ln "# Context").
  intros status diff. rewrite !build_prompt_parts. unfold prompt_context.
  split.
  - now rewrite <- !app_assoc.
  - rewrite !length_app. cbn [length]. lia.
Qed.

(** X7.  The context section does not delimit its parts: a status that
    holds the line [## Git diff:] gives the prompt of a shorter status with
    a longer diff. *)
Theorem prompt_context_is_ambiguous
  (a b c : str) (args : Args) (config : Config) :
  build_prompt (a ++ nl ++ ln "## Git diff:" ++ b) c args config
  = build_prompt a (b ++ nl ++ ln "## Git diff:" ++ c) args config.
Proof.
  rewrite !build_prompt_parts. unfold prompt_context.
  now rewrite <- !app_assoc.
Qed.


(** ** The run, read by kind of event *)

(** The courses of a run, with the facts of each part of the trace at
    hand. *)
Ltac open_run args config env :=
  cbv zeta;
  let A := fresh "A" in
  let r := fresh "r" in
  let R := fresh "R" in
  pose proof (main_anatomy args config env) as A;
  remember (main args config env []) as r eqn:R; clear R;
  destruct A as [K|K|K|s0 K|s0 d0 K|s0 d0 count reply K Y Q|s0 d0 count gate K G
                |s0 d0 count gate ct us K G];
  [ | | | |
   destruct (copied_quiet args (build_prompt s0 (text_of d0) args config))
     as (Cr & Cq & Cc & Cd & Cf & Ca & Cw & Ce)
   |
   |destruct (gate_facts G) as (Gr & Gc & Gd & Gw & Ge & Gq & Gf & Ga)
   |destruct (gate_facts G) as (Gr & Gc & Gd & Gw & Ge & Gq & Gf & Ga);
    destruct (usage_quiet us) as (Ur & Uq & Uc & Ud & Uw & Ue & Uf & Ua);
    match goal with
    | |- context [handle_reply ?res ?a ?e ?t] =>
        destruct (reply_course res a e t) as (new & E & L & I & C & X & M & U & O & N);
        cbv zeta in E, I, C, X, M, U, O, N;
        destruct (local_projections _ L) as (Lc & Lw & Le);
        destruct (handle_reply res a e t) as [o tr];
        cbn [fst snd] in *; subst tr
    end;
    rewrite clean_strip in *];
  cbn [fst snd];
  try (unfold inspected;
       match goal with
       | |- context [prepared ?a ?c ?p ?n] =>
           destruct (prepared_quiet a c p n) as (Pr & Pq & Pc & Pd & Pw & Pe & Pf & Pa)
       end).

(** X8.  The run asks before it acts.  With [-y] it asks nothing.
    Otherwise it asks at most two questions, the one about generation
    before the one about execution; the backend is called only after the
    first was answered [y] or [Y], and a command other than the two queries
    is issued only after both were; after an answer that is anything else
    no such command is issued, and after such an answer to the first
    question the backend is not called. *)
Theorem main_asks_before_acting (args : Args) (config : Config) (env : Env) :
  let tr := snd (main args config env []) in
  (yes args = true -> questions tr = []) /\
  (exists k, List.map fst (questions tr) = firstn k [q_generate; q_execute]) /\
  (chats tr <> [] ->
   yes args = true \/
   exists a rest, questions tr = (q_generate, a) :: rest /\ is_yes a = true) /\
  (skipn 2 (runs tr) <> [] ->
   yes args = true \/
   exists a b, questions tr = [(q_generate, a); (q_execute, b)] /\
     is_yes a = true /\ is_yes b = true) /\
  (existsb declined tr = true -> skipn 2 (runs tr) = []) /\
  (forall a rest, questions tr = (q_generate, a) :: rest -> is_yes a = false ->
     chats tr = []).
Proof.
  open_run args config env.
  - cbn. repeat split; try easy. now exists 0.
  - cbn. repeat split; try easy. now exists 0.
  - cbn. repeat split; try easy. now exists 0.
  - cbn. repeat split; try easy. now exists 0.
  - read_trace. cbn [app runs questions chats existsb declined].
    rewrite Cr, Cq, Cc, Cd. cbn [app skipn orb List.map fst].
    repeat split; try easy. now exists 0.
  - read_trace. cbn [app runs questions chats existsb declined]. 
    rewrite Pr, Pq, Pc, Pd. cbn [app skipn orb List.map fst].
    split; [congruence|]. split; [now exists 1|].
    repeat split; easy.
  - read_trace. cbn [app runs questions chats existsb declined fatal_event].
    rewrite Pr, Pq, Pc, Pd, Gr, Gc, Gd. cbn [app skipn orb].
    destruct Gq as [[Y ->]|[Y (a & Q & ->)]]; cbn [app List.map fst].
    + split; [reflexivity|]. split; [now exists 0|].
      split; [now left|]. repeat split; easy.
    + split; [congruence|]. split; [now exists 1|].
      split; [intros _; right; now exists a, []|].
      split; [easy|]. split; [easy|].
      intros a' rest H F. injection H as <- _. congruence.
  - read_trace. cbn [app runs questions chats existsb declined].
    rewrite Pr, Pq, Pc, Pd, Gr, Gc, Gd, Ur, Uq, Uc, Ud, Lc.
    cbn [app skipn orb]. rewrite declined_questions.
    destruct Gq as [[Y ->]|[Y (a & Q & ->)]]; cbn [app List.map fst].
    + destruct I as [->|[Y' _]]; [|congruence].
      split; [reflexivity|]. split; [now exists 0|].
      split; [now left|]. split; [now left|]. split; easy.
    + split; [congruence|].
      destruct I as [I|[_ (b & I & D)]]; rewrite I in *; cbn [app List.map fst].
      * split; [now exists 1|].
        split; [intros _; right; now exists a, []|].
        split.
        { intros H. destruct (C H) as [[F|(b & F & _)] _]; [congruence|discriminate F]. }
        split; [easy|].
        intros a' rest H F. injection H as <- _. congruence.
      * split; [now exists 2|].
        split; [intros _; right; now exists a, [(q_execute, b)]|].
        split.
        { intros H. destruct (C H) as [[F|(b' & F & Qb)] _]; [congruence|].
          injection F as <-. right. now exists a, b. }
        split.
        { cbn [existsb snd orb]. rewrite orb_false_r. intros H.
          apply D. now apply negb_true_iff. }
        intros a' rest H F. injection H as <- _. congruence.
Qed.

(** X9.  Once the status query has succeeded the run builds one prompt,
    from that status and from the diff query's output (the empty text when
    that query failed), and every use of a prompt is a use of this one: the
    copy written to the output file, written exactly when an output path is
    given; the text handed to the estimator, once, under the configured
    model or the default one; and the text sent to the backend, at most
    once, by a client made of the configured key and base URL. *)
Theorem main_uses_one_prompt
  (args : Args) (config : Config) (env : Env)
  (status : str) (diff : option str) (rest : list event) :
  snd (main args config env [])
  = EvRun status_command (Some status) :: EvRun (diff_command config) diff :: rest ->
  let P := build_prompt status (text_of diff) args config in
  writes rest = (if nonempty (output args) then [(text_of (output args), P)] else []) /\
  estimates rest = [(model_of config, P)] /\
  (chats rest = [] \/
   exists reply, chats rest = [(client_of config, request_of P config, reply)]).
Proof.
  open_run args config env; intros H; try discriminate H;
    cbn [app] in H; injection H as <- <- <-;
    read_trace; cbn [app writes estimates chats];
    rewrite ?Cw, ?Ce, ?Cc, ?Pw, ?Pe, ?Pc, ?Gw, ?Ge, ?Gc, ?Uw, ?Ue, ?Uc, ?Lw, ?Le, ?Lc;
    rewrite ?app_nil_r; cbn [app];
    (split; [reflexivity|]); (split; [reflexivity|]);
    first [now left | right; eexists; reflexivity].
Qed.

(** X10.  Every command after the two queries comes from the backend's
    reply: when one is issued, the backend was called once and replied, the
    reply (cleaned) decodes to an object whose [commit_message] is a
    string, and the commands of the run are the status query, the diff
    query and then the first steps of the plan made of that string and of
    the reply's [branch_name], in this order; each step but the last
    succeeded. *)
Theorem main_runs_the_reply (args : Args) (config : Config) (env : Env) :
  let tr := snd (main args config env []) in
  skipn 2 (runs tr) <> [] ->
  exists c q content usage pairs m,
    chats tr = [(c, q, Some (content, usage))] /\
    loads (clean content) = Some (JObject pairs) /\
    dict_get pairs (lit "commit_message") = Some (JString m) /\
    (exists k, List.map fst (runs tr)
               = firstn k (status_command :: diff_command config ::
                           planned m (as_branch (branch_of pairs args)) args)) /\
    forallb snd (removelast (skipn 2 (runs tr))) = true.
Proof.
  open_run args config env; read_trace; cbn [app runs chats];
    rewrite ?Cr, ?Cc, ?Pr, ?Pc, ?Gr, ?Gc, ?Ur, ?Uc, ?Lc; cbn [app skipn];
    intros H; try now contradiction H.
  destruct (C H) as (_ & pairs & m & Dl & Dg & [k Dk] & Ds).
  exists (client_of config),
    (request_of (build_prompt s0 (text_of d0) args config) config),
    ct, us, pairs, m.
  split; [reflexivity|]. split; [exact (json_loads_got _ _ Dl)|]. split; [exact Dg|].
  split; [|exact Ds].
  exists (S (S k)). cbn [List.map fst firstn]. now rewrite Dk.
Qed.

(** X11.  The shape of the decoded reply decides how the run ends when it
    is not an object with a commit message: a reply that decodes, under the
    interpreter's limits, to a value that is not an object raises
    [TypeError], and one that decodes to an object without [commit_message]
    raises [KeyError], both before the second question and before any
    command. *)
Theorem main_raises_on_shape_of_reply
  (args : Args) (config : Config) (env : Env)
  (c : Client) (q : Request) (content : str) (usage : option Usage) (v : value) :
  let r := main args config env [] in
  chats (snd r) = [(c, q, Some (content, usage))] ->
  json_loads (interpreter env) (clean content) = Got v ->
  misshapen v = true ->
  fst r = Raises (match v with JObject _ => KeyError | _ => TypeError end) /\
  skipn 2 (runs (snd r)) = [] /\
  (forall a, ~ In (q_execute, a) (questions (snd r))).
Proof.
  open_run args config env; read_trace; cbn [app runs chats questions];
    rewrite ?Cr, ?Cc, ?Cq, ?Pr, ?Pc, ?Pq, ?Gr, ?Gc, ?Ur, ?Uc, ?Uq, ?Lc; cbn [app skipn];
    intros H; try discriminate H.
  injection H as _ _ <- _. intros Dl Dm.
  destruct (M v Dl Dm) as [-> ->]. cbn [runs questions].
  rewrite !app_nil_r.
  split; [reflexivity|]. split; [reflexivity|].
  intros a Hin.
  destruct Gq as [[_ Hq]|[_ (b & _ & Hq)]]; rewrite Hq in Hin;
    [destruct Hin|destruct Hin as [Hin|[]]].
  vm_compute in Hin. discriminate Hin.
Qed.

(** X12.  A reply without a plan ends the run without a command and
    without the second question.  When the decoder, under the
    interpreter's limits, refuses the cleaned reply with [JSONDecodeError]
    and the text holds no surrogate, the run prints the text it tried to
    decode and the failure, and returns; when the reply decodes to an
    object whose [commit_message] is null the run returns at once, the call
    of the backend and the usage lines being the last thing it did. *)
Theorem main_stops_without_plan
  (args : Args) (config : Config) (env : Env)
  (c : Client) (q : Request) (content : str) (usage : option Usage) :
  let r := main args config env [] in
  chats (snd r) = [(c, q, Some (content, usage))] ->
  (json_loads (interpreter env) (clean content) = Bad ->
   existsb is_surrogate (clean content) = false ->
   fst r = Returns tt /\
   skipn 2 (runs (snd r)) = [] /\
   (forall a, ~ In (q_execute, a) (questions (snd r))) /\
   exists pre,
     snd r = pre ++ EvChat c q (Some (content, usage)) :: usage_lines usage ++
             [EvPrint [Lit (lit "AI Response: "); Val (JString (clean content))];
              EvPrint [Lit (lit "Failed to parse JSON response.")]]) /\
  (forall pairs,
     json_loads (interpreter env) (clean content) = Got (JObject pairs) ->
     dict_get pairs (lit "commit_message") = Some JNull ->
     fst r = Returns tt /\
     skipn 2 (runs (snd r)) = [] /\
     (forall a, ~ In (q_execute, a) (questions (snd r))) /\
     exists pre,
       snd r = pre ++ EvChat c q (Some (content, usage)) :: usage_lines usage).
Proof.
  open_run args config env; read_trace; cbn [app runs chats questions];
    rewrite ?Cr, ?Cc, ?Cq, ?Pr, ?Pc, ?Pq, ?Gr, ?Gc, ?Ur, ?Uc, ?Uq, ?Lc; cbn [app skipn];
    intros H; try discriminate H.
  injection H as <- <- <- <-.
  assert (Hq : forall a, ~ In (q_execute, a) (questions gate)).
  { intros a Hin.
    destruct Gq as [[_ Hq]|[_ (b & _ & Hq)]]; rewrite Hq in Hin;
      [destruct Hin|destruct Hin as [Hin|[]]].
    vm_compute in Hin. discriminate Hin. }
  split.
  - intros Dl _. destruct (U Dl) as [-> ->]. cbn [runs questions].
    split; [reflexivity|]. split; [reflexivity|].
    split; [rewrite !app_nil_r; exact Hq|].
    exists (inspected args config s0 d0 count ++ gate).
    unfold inspected. rewrite <- !app_assoc. reflexivity.
  - intros pairs Dl Dg. destruct (N pairs Dl Dg) as [-> ->]. cbn [runs questions].
    split; [reflexivity|]. split; [reflexivity|].
    split; [rewrite !app_nil_r; exact Hq|].
    exists (inspected args config s0 d0 count ++ gate).
    unfold inspected. rewrite <- !app_assoc, !app_nil_r. reflexivity.
Qed.
Lemma main_asks_before_acting_witness :
  let tr := snd (main other_args sample_config
                   (replying_env (sq "{'commit_message': 'fix: typo'}")) []) in
  exists a b, questions tr = [(q_generate, a); (q_execute, b)] /\
    is_yes a = true /\ is_yes b = true.
Proof.
  destruct (main_asks_before_acting other_args sample_config
              (replying_env (sq "{'commit_message': 'fix: typo'}")))
    as (_ & _ & _ & H & _).
  destruct H as [H|H]; [vm_compute; discriminate|discriminate H|exact H].
Defined.

Lemma main_uses_one_prompt_witness :
  writes (skipn 2 (snd (main other_args sample_config (replying_env []) [])))
  = [(lit "prompt.txt", build_prompt [] [] other_args sample_config)].
Proof.
  exact (proj1 (@main_uses_one_prompt other_args sample_config (replying_env [])
                  [] (Some [])
                  (skipn 2 (snd (main other_args sample_config (replying_env []) [])))
                  eq_refl)).
Defined.

Lemma main_runs_the_reply_witness :
  let tr := snd (main branch_push_args sample_config
                   (replying_env
                      (sq "{'commit_message': 'fix: typo', 'branch_name': 'fix/typo'}"))
                   []) in
  exists c q content usage pairs m,
    chats tr = [(c, q, Some (content, usage))] /\
    loads (clean content) = Some (JObject pairs) /\
    dict_get pairs (lit "commit_message") = Some (JString m) /\
    (exists k, List.map fst (runs tr)
               = firstn k (status_command :: diff_command sample_config ::
                           planned m (as_branch (branch_of pairs branch_push_args))
                             branch_push_args)) /\
    forallb snd (removelast (skipn 2 (runs tr))) = true.
Proof.
  apply (main_runs_the_reply branch_push_args sample_config
           (replying_env
              (sq "{'commit_message': 'fix: typo', 'branch_name': 'fix/typo'}"))).
  vm_compute. discriminate.
Defined.

Lemma main_raises_on_shape_of_reply_witness :
  fst (main plain_args sample_config (replying_env (lit "[1]")) []) = Raises TypeError /\
  fst (main plain_args sample_config (replying_env (sq "{'message': 'fix: typo'}")) [])
  = Raises KeyError.
Proof.
  split.
  - apply (@main_raises_on_shape_of_reply plain_args sample_config
             (replying_env (lit "[1]"))
             (client_of sample_config)
             (request_of (build_prompt [] [] plain_args sample_config) sample_config)
             (lit "[1]") (Some sample_usage) (JArray [JInt 1]));
      reflexivity.
  - apply (@main_raises_on_shape_of_reply plain_args sample_config
             (replying_env (sq "{'message': 'fix: typo'}"))
             (client_of sample_config)
             (request_of (build_prompt [] [] plain_args sample_config) sample_config)
             (sq "{'message': 'fix: typo'}") (Some sample_usage)
             (JObject [(lit "message", JString (lit "fix: typo"))]));
      reflexivity.
Defined.

Lemma main_stops_without_plan_witness :
  fst (main plain_args sample_config (replying_env (sq "{'commit_message': null}")) [])
  = Returns tt /\
  skipn 2 (runs (snd (main plain_args sample_config
                        (replying_env (sq "{'commit_message': null}")) [])))
  = [] /\
  fst (main plain_args sample_config (replying_env (lit "Sure, here it is.")) [])
  = Returns tt.
Proof.
  destruct (proj2 (@main_stops_without_plan plain_args sample_config
                     (replying_env (sq "{'commit_message': null}"))
                     (client_of sample_config)
                     (request_of (build_prompt [] [] plain_args sample_config)
                        sample_config)
                     (sq "{'commit_message': null}") (Some sample_usage) eq_refl)
              [(lit "commit_message", JNull)] eq_refl eq_refl)
    as (H1 & H2 & _).
  destruct (proj1 (@main_stops_without_plan plain_args sample_config
                     (replying_env (lit "Sure, here it is."))
                     (client_of sample_config)
                     (request_of (build_prompt [] [] plain_args sample_config)
                        sample_config)
                     (lit "Sure, here it is.") (Some sample_usage) eq_refl)
              eq_refl eq_refl)
    as (H3 & _).
  split; [exact H1|]. split; [exact H2|exact H3].
Defined.

Lemma in_firstn (A : Type) (x : A) (k : nat) (l : list A) :
  In x (firstn k l) -> In x l.
Proof.
  revert l. induction k as [|k IH]; intros [|a l] H; cbn [firstn] in H;
    try contradiction.
  destruct H as [H|H]; [now left|right; now apply IH].
Qed.

(** X13.  A branch is created only with [-b] and only under the name the
    reply gives: a checkout among the commands of a run is [git checkout
    -b] with the non-empty string that is the reply's [branch_name].  A
    push is issued only with [-p], and without [-b] it names [main]
    whatever the reply says. *)
Theorem main_branch_needs_option
  (args : Args) (config : Config) (env : Env) (argv : list str) (ok : bool) :
  let tr := snd (main args config env []) in
  In (argv, ok) (runs tr) ->
  (verb argv = lit "checkout" ->
   branch args = true /\
   exists c q content usage pairs b,
     chats tr = [(c, q, Some (content, usage))] /\
     loads (clean content) = Some (JObject pairs) /\
     dict_get pairs (lit "branch_name") = Some (JString b) /\
     b <> [] /\ argv = checkout_argv b) /\
  (verb argv = lit "push" ->
   push args = true /\
   (branch args = false -> argv = push_argv (lit "main"))).
Proof.
  open_run args config env; read_trace; cbn [app runs chats];
    rewrite ?Cr, ?Cc, ?Pr, ?Pc, ?Gr, ?Gc, ?Ur, ?Uc, ?Lc; cbn [app];
    intros H;
    repeat match type of H with
           | In _ (_ :: _) =>
               destruct H as [H|H];
               [injection H as <- _; split; intros V; vm_compute in V; discriminate V|]
           end;
    try contradiction.
  assert (Hn : runs new <> []) by (intros F; now rewrite F in H).
  destruct (C Hn) as (_ & pairs & m & Dl & Dg & [k Dk] & _).
  apply (in_map fst) in H. cbn [fst] in H. rewrite Dk in H.
  apply in_firstn in H. unfold planned in H.
  apply in_app_or in H as [H|H];
    [destruct H as [<-|[]]; split; intros V; vm_compute in V; discriminate V|].
  apply in_app_or in H as [H|H].
  - destruct (nonempty (as_branch (branch_of pairs args))) eqn:B; [|contradiction].
    destruct H as [<-|[]].
    split; [intros _|intros V; vm_compute in V; discriminate V].
    unfold branch_of in *.
    destruct (branch args); [|discriminate B]. split; [reflexivity|].
    destruct (dict_get pairs (lit "branch_name")) as [[| | | | | |b| |]|] eqn:Db;
      try discriminate B.
    exists (client_of config),
      (request_of (build_prompt s0 (text_of d0) args config) config),
      ct, us, pairs, b.
    split; [reflexivity|]. split; [exact (json_loads_got _ _ Dl)|]. split; [exact Db|].
    split; [|reflexivity]. intros ->. discriminate B.
  - destruct (push args); [|contradiction]. destruct H as [<-|[]].
    split; [intros V; vm_compute in V; discriminate V|intros _].
    split; [reflexivity|]. intros Hb. unfold branch_of. rewrite Hb. reflexivity.
Qed.

Lemma main_branch_needs_option_witness :
  branch branch_push_args = true /\
  exists c q content usage pairs b,
    chats (snd (main branch_push_args sample_config
                  (replying_env
                     (sq "{'commit_message': 'fix: typo', 'branch_name': 'fix/typo'}"))
                  []))
    = [(c, q, Some (content, usage))] /\
    loads (clean content) = Some (JObject pairs) /\
    dict_get pairs (lit "branch_name") = Some (JString b) /\
    b <> [] /\ checkout_argv (lit "fix/typo") = checkout_argv b.
Proof.
  apply (@main_branch_needs_option branch_push_args sample_config
           (replying_env
              (sq "{'commit_message': 'fix: typo', 'branch_name': 'fix/typo'}"))
           (checkout_argv (lit "fix/typo")) true).
  - vm_compute. auto.
  - reflexivity.
Defined.

(** ** The failures that no handler catches *)

(** X15.  The failures of the inspection that the run does not handle.
    With a credential present: output of the status query that cannot be
    decoded raises [UnicodeDecodeError] at once; so does such output of the
    diff query, after the status query and before a prompt is written,
    counted or sent; and a failure of the estimator other than an unknown
    model raises after the copy of the prompt is written, before any
    question is asked and before the backend is called. *)
Theorem inspection_failures_escape (args : Args) (config : Config) (env : Env) :
  nonempty (openai_api_key config) = true ->
  (forall out,
     subprocess env [] status_command = Some out ->
     undecodable env [] status_command = true ->
     main args config env [] = (Raises UnicodeDecodeError, [EvGarbled status_command])) /\
  (forall status out,
     subprocess env [] status_command = Some status ->
     undecodable env [] status_command = false ->
     subprocess env [EvRun status_command (Some status)] (diff_command config) = Some out ->
     undecodable env [EvRun status_command (Some status)] (diff_command config) = true ->
     main args config env []
     = (Raises UnicodeDecodeError,
        [EvRun status_command (Some status); EvGarbled (diff_command config)])) /\
  (forall status diff,
     subprocess env [] status_command = Some status ->
     undecodable env [] status_command = false ->
     subprocess env [EvRun status_command (Some status)] (diff_command config) = diff ->
     undecodable env [EvRun status_command (Some status)] (diff_command config) = false ->
     let P := build_prompt status (text_of diff) args config in
     let before := [EvRun status_command (Some status); EvRun (diff_command config) diff]
                   ++ copied args P in
     estimator_fault env before (model_of config) P = true ->
     main args config env []
     = (Raises EstimatorError, before ++ [EvEncodeFault (model_of config) P])).
Proof.
  intros K. split; [|split].
  - intros out S U. unfold main. rewrite K, bind_eq, get_git_status_run, S, U.
    reflexivity.
  - intros status out S U D V. unfold main.
    rewrite K, bind_eq, get_git_status_run, S, U. cbv beta iota.
    rewrite bind_eq, get_git_diff_run. cbn [app]. now rewrite D, V.
  - intros status diff S U D V P before F. unfold main.
    rewrite K, bind_eq, get_git_status_run, S, U. cbv beta iota.
    rewrite bind_eq, get_git_diff_run. cbn [app]. rewrite D, V.
    subst P before.
    destruct diff as [out|]; cbv beta iota zeta; unfold copied in *;
      cbn [text_of] in *; fold (model_of config); rewrite bind_eq;
      (destruct (nonempty (output args));
       repeat (rewrite ?bind_eq, ?write_file_eq, ?print_eq, ?ret_eq; cbv beta iota);
       rewrite encode_count_eq; cbn [app] in *; rewrite ?app_nil_r in *;
       rewrite F; reflexivity).
Qed.

Lemma inspection_failures_escape_witness :
  main plain_args sample_config garbling_env []
  = (Raises UnicodeDecodeError,
     [EvRun status_command (Some []); EvGarbled (diff_command sample_config)]).
Proof.
  exact (proj1 (proj2 (@inspection_failures_escape plain_args sample_config garbling_env
                         eq_refl))
           [] [] eq_refl eq_refl eq_refl eq_refl).
Defined.

Lemma scan_too_deep (digits d : nat) :
  forall n fuel rest,
    d < n -> 2 * d < fuel ->
    scan digits fuel d GValue (repeat 91%N n ++ rest) = Over TooDeep.
Proof.
  induction d as [|d IH]; intros n fuel rest Hn Hf.
  - destruct n; [lia|]. destruct fuel; [lia|]. reflexivity.
  - destruct n as [|[|n]]; try lia. destruct fuel as [|[|fuel]]; try lia.
    specialize (IH (S n) fuel rest ltac:(lia) ltac:(lia)).
    cbn [repeat app] in *.
    change (scan digits (S (S fuel)) (S d) GValue (91%N :: 91%N :: repeat 91%N n ++ rest))
      with (match scan digits fuel d GValue (91%N :: repeat 91%N n ++ rest) with
            | Bad => Bad
            | Over x => Over x
            | Got (v, r) =>
                match skip_ws r with
                | c :: r1 =>
                    if (c =? 93)%N then Got (JArray (rev (v :: [])), r1)
                    else if (c =? 44)%N
                         then scan digits fuel d (GItems (v :: [])) (skip_ws r1)
                         else Bad
                | [] => Bad
                end
            end).
    now rewrite IH.
Qed.

Lemma json_loads_too_deep (L : limits) (n : nat) :
  max_depth L < n -> json_loads L (repeat 91%N n) = Over TooDeep.
Proof.
  intros H. unfold json_loads.
  destruct n as [|n]; [lia|].
  change (startswith [65279%N] (repeat 91%N (S n))) with false. cbv iota.
  change (skip_ws (repeat 91%N (S n))) with (repeat 91%N (S n)).
  rewrite <- (app_nil_r (repeat 91%N (S n))) at 2.
  rewrite scan_too_deep; [reflexivity|exact H|].
  rewrite repeat_length. lia.
Qed.

Lemma clean_brackets (n : nat) : clean (repeat 91%N n) = repeat 91%N n.
Proof.
  destruct n as [|[|n]]; [reflexivity|reflexivity|].
  change (repeat 91%N (S (S n))) with (91%N :: (91%N :: repeat 91%N n)).
  rewrite (repeat_cons n 91%N).
  generalize (@clean_bare [] [] 91%N 91%N (repeat 91%N n) eq_refl eq_refl eq_refl eq_refl).
  cbn [app]. rewrite app_nil_r. intros B. apply B; discriminate.
Qed.

(** X16.  A reply beyond the interpreter's limits is not a decoding
    failure that the parser handles.  When the decoder exceeds a limit on
    the cleaned reply the run raises, [RecursionError] for the nesting and
    [ValueError] for the digits of an integer, right after the usage lines:
    nothing more is printed, no command is issued after the two queries and
    the second question is not asked.  A reply that is nothing but more
    opening brackets than the nesting allowed is such a reply. *)
Theorem main_raises_beyond_limits
  (args : Args) (config : Config) (env : Env)
  (c : Client) (q : Request) (content : str) (usage : option Usage) :
  let r := main args config env [] in
  chats (snd r) = [(c, q, Some (content, usage))] ->
  (forall x,
     json_loads (interpreter env) (clean content) = Over x ->
     fst r = Raises (limit_exn x) /\
     skipn 2 (runs (snd r)) = [] /\
     (forall a, ~ In (q_execute, a) (questions (snd r))) /\
     exists pre,
       snd r = pre ++ EvChat c q (Some (content, usage)) :: usage_lines usage) /\
  (forall n, max_depth (interpreter env) < n -> content = repeat 91%N n ->
     fst r = Raises RecursionError).
Proof.
  cbv zeta. intros H.
  assert (G : forall x,
     json_loads (interpreter env) (clean content) = Over x ->
     fst (main args config env []) = Raises (limit_exn x) /\
     skipn 2 (runs (snd (main args config env []))) = [] /\
     (forall a, ~ In (q_execute, a) (questions (snd (main args config env [])))) /\
     exists pre,
       snd (main args config env [])
       = pre ++ EvChat c q (Some (content, usage)) :: usage_lines usage).
  { revert H.
    open_run args config env; read_trace; cbn [app runs chats questions];
      rewrite ?Cr, ?Cc, ?Cq, ?Pr, ?Pc, ?Pq, ?Gr, ?Gc, ?Ur, ?Uc, ?Uq, ?Lc; cbn [app skipn];
      intros H; try discriminate H.
    injection H as <- <- <- <-.
    intros x Dl. destruct (O x Dl) as [-> ->]. cbn [runs questions].
    split; [reflexivity|]. split; [reflexivity|].
    split.
    - rewrite !app_nil_r. intros a Hin.
      destruct Gq as [[_ Hq]|[_ (b & _ & Hq)]]; rewrite Hq in Hin;
        [destruct Hin|destruct Hin as [Hin|[]]].
      vm_compute in Hin. discriminate Hin.
    - exists (inspected args config s0 d0 count ++ gate).
      unfold inspected. rewrite <- !app_assoc, !app_nil_r. reflexivity. }
  split; [exact G|].
  intros n Hn ->.
  apply (G TooDeep). rewrite clean_brackets. now apply json_loads_too_deep.
Qed.

Lemma main_raises_beyond_limits_witness :
  fst (main plain_args sample_config (replying_env (repeat 91%N 1001)) [])
  = Raises RecursionError.
Proof.
  apply (proj2 (@main_raises_beyond_limits plain_args sample_config
                  (replying_env (repeat 91%N 1001))
                  (client_of sample_config)
                  (request_of (build_prompt [] [] plain_args sample_config) sample_config)
                  (repeat 91%N 1001) (Some sample_usage) eq_refl) 1001).
  - apply Nat.ltb_lt. reflexivity.
  - reflexivity.
Defined.
